(** * Verification of the rule-based masking engine of llm-router-plugins

    Shallow embedding of [maskers/fast_masker] (validators, detector rules,
    [FastMasker]) and of [maskers/payload_interface.py].

    Texts are Python strings, modelled as lists of Unicode code points
    ([list Z]).  The detector rules are built on Python's [re] module; they
    are embedded through a small backtracking matcher in continuation passing
    style that follows [sre]: ordered alternation, greedy and lazy counted
    repetition, capture groups, [\b] and one-character negative
    lookarounds (the only lookarounds the rules use), [re.sub] with the
    [must_advance] rule after an empty match.  The character classes
    [\d], [\w], [\s] and case folding under [re.IGNORECASE] are modelled
    exactly on ASCII and on the Latin-1 and Polish letters the patterns
    mention. *)

From Stdlib Require Import ZArith List String Ascii Bool Lia.
Import ListNotations.
Open Scope Z_scope.
Set Warnings "-register-all".

(* ------------------------------------------------------------------ *)
(** ** Characters *)

Definition text := list Z.

Definition ch (a : ascii) : Z := Z.of_nat (nat_of_ascii a).

Definition txt (s : string) : text := map ch (list_ascii_of_string s).

Definition rng (lo hi c : Z) : bool := (lo <=? c) && (c <=? hi).

(** [\d]: decimal digits. *)
Definition is_digit (c : Z) : bool := rng 48 57 c.

(** [\s]: Python's Unicode whitespace below U+0250. *)
Definition is_space (c : Z) : bool :=
  rng 9 13 c || rng 28 32 c || (c =? 133) || (c =? 160).

Definition is_ascii_alpha (c : Z) : bool := rng 65 90 c || rng 97 122 c.

(** Letters of Latin-1 Supplement and Latin Extended-A/B. *)
Definition is_latin_letter (c : Z) : bool :=
  (c =? 170) || (c =? 181) || (c =? 186) ||
  (rng 192 591 c && negb (c =? 215) && negb (c =? 247)).

(** [\w]: [str.isalnum()] or underscore. *)
Definition is_word (c : Z) : bool :=
  is_ascii_alpha c || is_digit c || (c =? 95) || is_latin_letter c
  || (c =? 178) || (c =? 179) || (c =? 185) || rng 188 190 c.

(** Simple case mappings ([str.lower] / [str.upper] on one character). *)
Definition lower (c : Z) : Z :=
  if rng 65 90 c then c + 32
  else if rng 192 222 c && negb (c =? 215) then c + 32
  else if rng 256 303 c && Z.even c then c + 1
  else if (c =? 304) then 105
  else if rng 306 311 c && Z.even c then c + 1
  else if rng 313 328 c && Z.odd c then c + 1
  else if rng 330 375 c && Z.even c then c + 1
  else if (c =? 376) then 255
  else if rng 377 382 c && Z.odd c then c + 1
  else if (c =? 8490) then 107
  else c.

Definition upper (c : Z) : Z :=
  if rng 97 122 c then c - 32
  else if rng 224 254 c && negb (c =? 247) then c - 32
  else if (c =? 255) then 376
  else if rng 257 303 c && Z.odd c then c - 1
  else if (c =? 305) then 73
  else if rng 307 311 c && Z.odd c then c - 1
  else if rng 314 328 c && Z.even c then c - 1
  else if rng 331 375 c && Z.odd c then c - 1
  else if rng 378 382 c && Z.even c then c - 1
  else if (c =? 383) then 83
  else if (c =? 181) then 924
  else c.

Definition is_upper (c : Z) : bool := negb (lower c =? c).

Definition str_lower (t : text) : text := map lower t.
Definition str_upper (t : text) : text := map upper t.

(** [str.isdigit()]: non-empty and made of digits. *)
Definition str_isdigit (t : text) : bool :=
  match t with [] => false | _ => forallb is_digit t end.

Definition digit_val (c : Z) : Z := c - 48.

Definition slice (b e : nat) (t : text) : text := firstn (e - b) (skipn b t).

(* ------------------------------------------------------------------ *)
(** ** Regular expressions (the subset of Python's [re] the rules use) *)

Inductive regex : Type :=
| Eps
| Chr (p : Z -> bool)                       (* one character of a class *)
| Cat (r1 r2 : regex)
| Alt (r1 r2 : regex)                       (* r1|r2, tried in order *)
| Rep (r : regex) (mn : nat) (mx : option nat) (greedy : bool)
| Grp (name : string) (r : regex)           (* (?P<name>r) *)
| WordB                                     (* \b *)
| NotBehind (p : Z -> bool)                 (* (?<!c) *)
| NotAhead (p : Z -> bool).                 (* (?!c) *)

Definition caps := list (string * (nat * nat)).

Definition dec_opt (o : option nat) : option nat :=
  match o with Some n => Some (Nat.pred n) | None => None end.

Section Matcher.
  (** [ci] is [re.IGNORECASE]; [s] the subject string. *)
  Variable ci : bool.
  Variable s : text.

Definition at_ (i : nat) : option Z := nth_error s i.

Definition ctest (p : Z -> bool) (c : Z) : bool :=
    p c || (ci && (p (lower c) || p (upper c))).

Definition word_at (i : nat) : bool :=
    match at_ i with Some c => is_word c | None => false end.

Definition is_boundary (i : nat) : bool :=
    let before := match i with O => false | S i' => word_at i' end in
    xorb before (word_at i).

  (** The loop of a repetition [r{mn,mx}]: [m] runs one iteration of [r]
      with a continuation; the [mn] mandatory iterations come first, then
      greedy repetition tries one more iteration before the continuation
      and lazy repetition the other way round.  An optional iteration must
      advance (sre's protection against empty iterations). *)
Fixpoint rep_loop (m : (nat -> caps -> option (nat * caps)) -> nat -> caps -> option (nat * caps))
           (k : nat -> caps -> option (nat * caps)) (gr : bool)
           (fuel mn : nat) (mx : option nat) (i : nat) (g : caps) : option (nat * caps) :=
    match fuel with
    | O => None
    | S fuel' =>
        match mn with
        | S mn' => m (fun j g' => rep_loop m k gr fuel' mn' (dec_opt mx) j g') i g
        | O =>
            match mx with
            | Some O => k i g
            | _ =>
                if gr then
                  match m (fun j g' => if (i <? j)%nat
                                       then rep_loop m k gr fuel' O (dec_opt mx) j g'
                                       else None) i g with
                  | Some x => Some x
                  | None => k i g
                  end
                else
                  match k i g with
                  | Some x => Some x
                  | None => m (fun j g' => if (i <? j)%nat
                                           then rep_loop m k gr fuel' O (dec_opt mx) j g'
                                           else None) i g
                  end
            end
        end
    end.

Fixpoint mt (r : regex) (k : nat -> caps -> option (nat * caps))
           (i : nat) (g : caps) {struct r} : option (nat * caps) :=
    match r with
    | Eps => k i g
    | Chr p =>
        match at_ i with
        | Some c => if ctest p c then k (S i) g else None
        | None => None
        end
    | Cat r1 r2 => mt r1 (fun j g' => mt r2 k j g') i g
    | Alt r1 r2 =>
        match mt r1 k i g with Some x => Some x | None => mt r2 k i g end
    | Grp n r1 => mt r1 (fun j g' => k j ((n, (i, j)) :: g')) i g
    | WordB => if is_boundary i then k i g else None
    | NotBehind p =>
        match i with
        | O => k i g
        | S i' => match at_ i' with
                  | Some c => if ctest p c then None else k i g
                  | None => k i g
                  end
        end
    | NotAhead p =>
        match at_ i with
        | Some c => if ctest p c then None else k i g
        | None => k i g
        end
    | Rep r1 mn0 mx0 gr => rep_loop (mt r1) k gr (S (mn0 + List.length s)) mn0 mx0 i g
    end.

  (** One attempt at position [i]; with [must] (sre's [must_advance]) an
      empty match at [i] is refused. *)
Definition match_at (r : regex) (must : bool) (i : nat) : option (nat * caps) :=
    mt r (fun j g => if must && (j =? i)%nat then None else Some (j, g)) i [].

Fixpoint search_go (r : regex) (n : nat) (i : nat) (must : bool)
    : option (nat * nat * caps) :=
    match match_at r must i with
    | Some (j, g) => Some (i, j, g)
    | None => match n with
              | O => None
              | S n' => search_go r n' (S i) false
              end
    end.

  (** [pattern.search(s, pos)] *)
Definition search (r : regex) (pos : nat) (must : bool) : option (nat * nat * caps) :=
    search_go r (List.length s - pos) pos must.

Record rmatch := { m_start : nat; m_end : nat; m_caps : caps }.

  (** [match.group(0)] and [match.group(name)] *)
Definition group0 (m : rmatch) : text := slice (m_start m) (m_end m) s.

Definition group (m : rmatch) (n : string) : option text :=
    match find (fun e => String.eqb (fst e) n) (m_caps m) with
    | Some (_, (b, e)) => Some (slice b e s)
    | None => None
    end.

  (** [pattern.sub(repl, s)], following [pattern_subx] of [_sre.c]. *)
Fixpoint sub_go (r : regex) (repl : rmatch -> text) (fuel : nat)
           (pos : nat) (must : bool) : text :=
    match fuel with
    | O => skipn pos s
    | S fuel' =>
        match search r pos must with
        | None => skipn pos s
        | Some (b, e, g) =>
            slice pos b s ++ repl {| m_start := b; m_end := e; m_caps := g |}
                  ++ sub_go r repl fuel' e (e =? b)%nat
        end
    end.

Definition sub (r : regex) (repl : rmatch -> text) : text :=
    sub_go r repl (S (2 * List.length s)) 0 false.

  (** [re.fullmatch(pattern, s)] *)
Definition fullmatch (r : regex) : bool :=
    match mt r (fun j g => if (j =? List.length s)%nat then Some (j, g) else None) 0 [] with
    | Some _ => true
    | None => false
    end.

  (** [re.search(pattern, s) is not None] *)
Definition search_any (r : regex) : bool :=
    match search r 0 false with Some _ => true | None => false end.
End Matcher.

(** [re.sub(pattern, "", s)] for a one-character class: a filter. *)
Definition strip_chars (p : Z -> bool) (t : text) : text :=
  filter (fun c => negb (p c)) t.

(* ------------------------------------------------------------------ *)
(** ** Pattern combinators *)

Definition lit (t : text) : regex :=
  fold_right (fun c r => Cat (Chr (fun x => x =? c)) r) Eps t.
Definition lits (s : string) : regex := lit (txt s).
Definition seqs (l : list regex) : regex := fold_right Cat Eps l.
Fixpoint alts (l : list regex) : regex :=
  match l with
  | [] => Chr (fun _ => false)
  | [r] => r
  | r :: l' => Alt r (alts l')
  end.
Definition opt (r : regex) : regex := Rep r 0%nat (Some 1%nat) true.
Definition star (r : regex) : regex := Rep r 0%nat None true.
Definition plus (r : regex) : regex := Rep r 1%nat None true.
Definition rpt (r : regex) (m n : nat) : regex := Rep r m (Some n) true.
Definition rpt_min (r : regex) (m : nat) : regex := Rep r m None true.
Definition lazy_star (r : regex) : regex := Rep r 0%nat None false.

Definition chr (a : ascii) : regex := Chr (fun x => x =? ch a).
Definition crng (a b : ascii) : Z -> bool := rng (ch a) (ch b).
Definition cone (a : ascii) : Z -> bool := fun x => x =? ch a.
Definition por (l : list (Z -> bool)) : Z -> bool :=
  fun c => existsb (fun p => p c) l.

Definition d : regex := Chr is_digit.                 (* \d *)
Definition sp : regex := Chr is_space.                (* \s *)
Definition w : regex := Chr is_word.                  (* \w *)
Definition dn (n : nat) : regex := rpt d n n.         (* \d{n} *)

(* ------------------------------------------------------------------ *)
(** ** Validator library ([fast_masker/utils/validators.py]) *)

(** [sum(w * d for w, d in zip(weights, digits))] *)
Definition wsum (ws ds : list Z) : Z :=
  fold_right Z.add 0 (map (fun wd => fst wd * snd wd) (combine ws ds)).

Definition digits_of (t : text) : list Z := map digit_val t.

Definition pesel_weights : list Z := [1; 3; 7; 9; 1; 3; 7; 9; 1; 3].

Definition is_valid_pesel (pesel : text) : bool :=
  if negb (str_isdigit pesel && (List.length pesel =? 11)%nat) then false
  else
    let digits := digits_of pesel in
    let checksum_calc := wsum pesel_weights (firstn 10 digits) mod 10 in
    let checksum_expected := (10 - checksum_calc) mod 10 in
    checksum_expected =? nth 10 digits 0.

(** [re.fullmatch(r"\d{n}", t)] *)
Definition fullmatch_digits (n : nat) (t : text) : bool := fullmatch false t (dn n).

(** [_is_valid_nip] of [nip_rule.py] (same body as [validators.is_valid_nip]) *)
Definition is_valid_nip (raw_nip : text) : bool :=
  let digits := strip_chars (fun c => (c =? ch "-") || is_space c) raw_nip in
  if negb (fullmatch_digits 10 digits) then false
  else
    let checksum := wsum [6; 5; 7; 2; 3; 4; 5; 6; 7] (firstn 9 (digits_of digits)) mod 11 in
    checksum =? nth 9 (digits_of digits) 0.

Definition is_valid_krs (raw_krs : text) : bool :=
  let digits := strip_chars (fun c => (c =? ch "-") || is_space c) raw_krs in
  if negb (fullmatch_digits 10 digits) then false
  else
    let weighted_sum := wsum [2; 3; 4; 5; 6; 7; 8; 9; 2] (firstn 9 (digits_of digits)) in
    let control_digit := weighted_sum mod 11 in
    if control_digit =? 10 then false
    else control_digit =? nth 9 (digits_of digits) 0.

Definition regon_checksum (value : text) (weights : list Z) : Z :=
  let r := wsum weights (digits_of value) mod 11 in
  if r =? 10 then 0 else r.

Definition is_valid_regon (raw_regon : text) : bool :=
  let digits := strip_chars is_space raw_regon in
  if negb (fullmatch false digits (Alt (dn 9) (dn 14))) then false
  else
    let w9 := [8; 9; 2; 3; 4; 5; 6; 7] in
    let ds := digits_of digits in
    if (List.length digits =? 9)%nat then regon_checksum (firstn 8 digits) w9 =? nth 8 ds 0
    else if negb (regon_checksum (firstn 8 digits) w9 =? nth 8 ds 0) then false
    else regon_checksum (firstn 13 digits) [2; 3; 4; 5; 6; 7; 8; 9; 2; 3; 4; 5; 6]
         =? nth 13 ds 0.

(** [_luhn_checksum]: the loop over the reversed digits. *)
Fixpoint luhn_loop (i : nat) (ds : list Z) (total : Z) : Z :=
  match ds with
  | [] => total
  | d0 :: ds' =>
      let d1 := if Nat.odd i then (let d2 := d0 * 2 in if d2 >? 9 then d2 - 9 else d2)
                else d0 in
      luhn_loop (S i) ds' (total + d1)
  end.

Definition luhn_checksum (number : text) : Z :=
  luhn_loop 0 (digits_of (rev number)) 0 mod 10.

Definition is_valid_credit_card (number : text) : bool :=
  let cleaned := strip_chars (fun c => (c =? ch " ") || (c =? ch "-")) number in
  if negb (str_isdigit cleaned) then false
  else if negb ((13 <=? List.length cleaned)%nat && (List.length cleaned <=? 19)%nat) then false
  else luhn_checksum cleaned =? 0.

Definition is_valid_nrb (nrb : text) : bool :=
  let cleaned := strip_chars is_space nrb in
  str_isdigit cleaned && (List.length cleaned =? 26)%nat.

(** [_VIN_TRANSLATION]: [enumerate("ABCDEFGHJKLMNPRSTUVWXYZ", start=1)]
    merged with the ten digits. *)
Definition vin_translation : list (Z * Z) :=
  combine (txt "ABCDEFGHJKLMNPRSTUVWXYZ") (map Z.of_nat (seq 1 23))
  ++ combine (txt "0123456789") (map Z.of_nat (seq 0 10)).

Definition vin_weights : list Z := [8; 7; 6; 5; 4; 3; 2; 10; 0; 9; 8; 7; 6; 5; 4; 3; 2].

Fixpoint assoc (tbl : list (Z * Z)) (c : Z) : option Z :=
  match tbl with
  | [] => None
  | (k, v) :: tbl' => if k =? c then Some v else assoc tbl' c
  end.

(** [[A-HJ-NPR-Z0-9]] *)
Definition vin_class : Z -> bool :=
  por [crng "A" "H"; crng "J" "N"; cone "P"; crng "R" "Z"; is_digit].

(** Weighted transliterated sum for a translation table; a key missing
    from the table cannot occur after the [fullmatch] guard. *)
Definition vin_total (tbl : list (Z * Z)) (vin : text) : Z :=
  fold_right Z.add 0
    (map (fun cw => match assoc tbl (fst cw) with
                    | Some v => v * snd cw
                    | None => 0
                    end) (combine vin vin_weights)).

Definition vin_check_char (remainder : Z) : Z :=
  if remainder =? 10 then ch "X" else 48 + remainder.

Definition is_valid_vin (vin0 : text) : bool :=
  let vin := str_upper vin0 in
  if negb (fullmatch false vin (rpt (Chr vin_class) 17 17)) then false
  else
    let total := vin_total vin_translation vin in
    let remainder := total mod 11 in
    match nth_error vin 8 with
    | Some c => c =? vin_check_char remainder
    | None => false
    end.

Definition car_plate_regex : regex :=
  seqs [rpt (Chr (crng "A" "Z")) 2 3; opt sp; rpt d 2 5; rpt (Chr (crng "A" "Z")) 0 2].

Definition is_valid_car_plate (plate : text) : bool :=
  fullmatch false (str_upper plate) car_plate_regex.

Definition is_valid_ssn (ssn : text) : bool :=
  fullmatch false ssn (seqs [dn 3; chr "-"; dn 2; chr "-"; dn 4]).

Definition hex : Z -> bool := por [is_digit; crng "A" "F"; crng "a" "f"].

Definition is_valid_mac (mac : text) : bool :=
  fullmatch false mac
    (seqs [rpt (seqs [rpt (Chr hex) 2 2; opt (Chr (por [cone ":"; cone "-"]))]) 5 5;
           rpt (Chr hex) 2 2]).

(** [str.split(".")] *)
Fixpoint split_on (sep : Z) (t : text) : list text :=
  match t with
  | [] => [[]]
  | c :: t' =>
      if c =? sep then [] :: split_on sep t'
      else match split_on sep t' with
           | p :: ps => (c :: p) :: ps
           | [] => [[c]]
           end
  end.

Definition b64url : Z -> bool :=
  por [crng "A" "Z"; crng "a" "z"; is_digit; cone "-"; cone "_"].

Definition is_possible_jwt (jwt : text) : bool :=
  let parts := split_on (ch ".") jwt in
  if negb (List.length parts =? 3)%nat then false
  else
    let fix chk (i : nat) (ps : list text) : bool :=
      match ps with
      | [] => true
      | p :: ps' =>
          if (match p with [] => true | _ => false end)
             || negb (fullmatch false p (plus (Chr b64url))) then false
          else if (i <? 2)%nat && (List.length p <? 20)%nat then false
          else chk (S i) ps'
      end in
    chk O parts.

Definition is_valid_sim_iccid (iccid : text) : bool :=
  let cleaned := strip_chars is_space iccid in
  str_isdigit cleaned && (19 <=? List.length cleaned)%nat && (List.length cleaned <=? 20)%nat.

Definition is_valid_ssl_serial (serial : text) : bool :=
  fullmatch false serial (rpt (Chr hex) 16 40).

Definition is_possible_transaction_ref (ref : text) : bool :=
  if negb ((8 <=? List.length ref)%nat && (List.length ref <=? 64)%nat) then false
  else search_any false ref d.

(* ------------------------------------------------------------------ *)
(** ** Detector rules ([fast_masker/rules/*.py]) *)

(** A rule: its compiled pattern, whether it was compiled with
    [re.IGNORECASE], and the replacement computed from the subject and the
    match ([BaseRule.apply] uses the constant placeholder). *)
Record rule := {
  rx : regex;
  rci : bool;
  repl : text -> rmatch -> text
}.

Definition apply (R : rule) (t : text) : text := sub (rci R) t (rx R) (repl R t).

Definition const_repl (ph : text) : text -> rmatch -> text := fun _ _ => ph.

(** A rule whose replacer keeps [match.group(0)] unless [valid] accepts it. *)
Definition validated (ph : text) (valid : text -> bool) : text -> rmatch -> text :=
  fun t m => let cand := group0 t m in if valid cand then ph else cand.

Definition grp_or_empty (t : text) (m : rmatch) (n : string) : text :=
  match group t m n with Some x => x | None => [] end.

Definition markers : regex := opt (plus (Chr (por [cone "_"; cone "*"]))).  (* (?:[_*]+)? *)

(** [CreditCardRule] *)
Definition credit_card_rule : rule := {|
  rx := seqs [WordB; dn 4; opt (Chr (por [cone " "; cone "-"]));
              dn 4; opt (Chr (por [cone " "; cone "-"]));
              dn 4; opt (Chr (por [cone " "; cone "-"])); rpt d 1 7; WordB];
  rci := true;
  repl := validated (txt "{{CREDIT_CARD}}") is_valid_credit_card |}.

(** [VinRule] *)
Definition vin_rule : rule := {|
  rx := seqs [WordB; rpt (Chr vin_class) 17 17; WordB];
  rci := true;
  repl := validated (txt "{{VIN}}") is_valid_vin |}.

(** [str.replace(old, new)]: every non-overlapping occurrence, left to right. *)
Fixpoint str_replace_go (fuel : nat) (old new t : text) : text :=
  match fuel with
  | O => t
  | S fuel' =>
      match t with
      | [] => []
      | c :: t' =>
          if list_eq_dec Z.eq_dec (firstn (List.length old) t) old
          then new ++ str_replace_go fuel' old new (skipn (List.length old) t)
          else c :: str_replace_go fuel' old new t'
      end
  end.

Definition str_replace (old new t : text) : text :=
  str_replace_go (List.length t) old new t.

(** [PeselTaggedRule]: [\bPESEL[:\s]+(?P<pesel>\d{11})\b], IGNORECASE. *)
Definition pesel_tagged_rule : rule := {|
  rx := seqs [WordB; lits "PESEL"; plus (Chr (por [cone ":"; is_space]));
              Grp "pesel" (dn 11); WordB];
  rci := true;
  repl := fun t m =>
            let pesel := grp_or_empty t m "pesel" in
            if is_valid_pesel pesel
            then str_replace pesel (txt "{{PESEL_TAGGED}}") (group0 t m)
            else group0 t m |}.

(** [PeselRule]: [(?<!\w)(?:[_*]+)?(?P<pesel>\d{11})(?:[_*]+)?(?!\w)], no
    flags; the replacer returns the captured digits when the checksum fails. *)
Definition pesel_rule : rule := {|
  rx := seqs [NotBehind is_word; markers; Grp "pesel" (dn 11); markers; NotAhead is_word];
  rci := false;
  repl := fun t m =>
            let pesel := grp_or_empty t m "pesel" in
            if is_valid_pesel pesel then txt "{{PESEL}}" else pesel |}.

Definition nip_krs_digits : regex :=
  Alt (seqs [dn 3; opt (chr "-"); dn 3; opt (chr "-"); dn 2; opt (chr "-"); dn 2])
      (dn 10).

(** [NipRule] *)
Definition nip_rule : rule := {|
  rx := seqs [NotBehind is_digit; markers; Grp "digits" nip_krs_digits; markers;
              NotAhead is_digit];
  rci := true;
  repl := fun t m =>
            if is_valid_nip (grp_or_empty t m "digits") then txt "{{NIP}}"
            else group0 t m |}.

(** [KrsRule] *)
Definition krs_rule : rule := {|
  rx := seqs [WordB; Grp "krs" nip_krs_digits; WordB];
  rci := true;
  repl := fun t m =>
            let raw_krs := grp_or_empty t m "krs" in
            if is_valid_krs raw_krs then txt "{{KRS}}" else raw_krs |}.

(** [RegonRule] *)
Definition regon_rule : rule := {|
  rx := seqs [WordB;
              Grp "reg" (seqs [dn 2; opt sp; dn 3; opt sp; dn 4; opt (seqs [opt sp; dn 5])]);
              WordB];
  rci := true;
  repl := fun t m =>
            let raw_regon := grp_or_empty t m "reg" in
            if is_valid_regon raw_regon then txt "{{REGON}}" else raw_regon |}.

(** [NrbRule]: the alternation binds loosest, so the pattern is
    [\b(?:2-4-4-4-4-4-4)] or [(?:\d{26})\b]. *)
Definition nrb_rule : rule := {|
  rx := Alt (seqs [WordB; dn 2; opt sp; dn 4; opt sp; dn 4; opt sp; dn 4; opt sp;
                   dn 4; opt sp; dn 4; opt sp; dn 4])
            (seqs [dn 26; WordB]);
  rci := false;
  repl := validated (txt "{{NRB}}") is_valid_nrb |}.

(** [MacAddressRule] *)
Definition mac_address_rule : rule := {|
  rx := seqs [WordB; rpt (seqs [rpt (Chr hex) 2 2; opt (Chr (por [cone ":"; cone "-"]))]) 5 5;
              rpt (Chr hex) 2 2; WordB];
  rci := false;
  repl := validated (txt "{{MAC_ADDRESS}}") is_valid_mac |}.

(** [PassportRule] *)
Definition passport_rule : rule := {|
  rx := seqs [WordB; rpt (Chr (crng "A" "Z")) 2 2; dn 7; WordB];
  rci := true;
  repl := const_repl (txt "{{PASSPORT}}") |}.

(** [IdCardRule] *)
Definition id_card_rule : rule := {|
  rx := seqs [WordB; rpt (Chr (crng "A" "Z")) 3 3; dn 6; WordB];
  rci := true;
  repl := const_repl (txt "{{ID_CARD}}") |}.

(** [SsnRule] *)
Definition ssn_rule : rule := {|
  rx := seqs [WordB; dn 3; chr "-"; dn 2; chr "-"; dn 4; WordB];
  rci := false;
  repl := validated (txt "{{SSN}}") is_valid_ssn |}.

(** [PhoneInternationalRule] *)
Definition phone_international_rule : rule := {|
  rx := seqs [WordB; chr "+"; rpt d 1 3;
              rpt (seqs [opt (Chr (por [cone " "; cone "-"])); rpt d 1 4]) 2 5; WordB];
  rci := false;
  repl := const_repl (txt "{{PHONE_INTERNATIONAL}}") |}.

(** [EmailRule] *)
Definition email_rule : rule := {|
  rx := seqs [opt (chr "_");
              plus (Chr (por [crng "A" "Z"; crng "a" "z"; is_digit; cone "."; cone "_";
                              cone "%"; cone "+"; cone "-"]));
              chr "@";
              plus (Chr (por [crng "A" "Z"; crng "a" "z"; is_digit; cone "."; cone "-"]));
              chr "."; rpt_min (Chr (por [crng "A" "Z"; crng "a" "z"])) 2;
              opt (chr "_")];
  rci := true;
  repl := const_repl (txt "{{EMAIL}}") |}.

Definition alnum_dash : Z -> bool := por [crng "A" "Z"; crng "a" "z"; is_digit; cone "-"].

Definition url_tlds : list string :=
  ["com"; "org"; "net"; "edu"; "gov"; "pl"; "dev"; "io"; "co"; "uk"; "de"; "fr";
   "it"; "es"; "ru"; "cn"; "jp"; "br"; "au"; "in"; "nl"; "se"; "no"; "fi"; "dk";
   "cz"; "sk"; "eu"; "info"; "biz"]%string.

(** [UrlRule] *)
Definition url_rule : rule := {|
  rx := Alt
    (seqs [WordB; lits "http"; opt (chr "s"); lits "://";
           star (seqs [plus (Chr alnum_dash); chr "."]);
           plus (Chr alnum_dash); chr "."; rpt_min (Chr (por [crng "A" "Z"; crng "a" "z"])) 2;
           opt (seqs [Chr (por [cone "/"; cone ":"]);
                      star (Chr (fun c => negb (is_space c || (c =? ch ")"))))])])
    (seqs [NotBehind (por [crng "A" "Z"; crng "a" "z"; is_digit; cone "_"]);
           Alt (lits "www.") (seqs [plus (Chr alnum_dash); chr "."]);
           plus (Chr alnum_dash); chr "."; alts (map lits url_tlds); WordB;
           NotAhead (por [crng "A" "Z"; crng "a" "z"; is_digit; cone "_"; cone "("])]);
  rci := true;
  repl := const_repl (txt "{{URL}}") |}.

(** [IpRule] (compiled with [re.VERBOSE] only). *)
Definition ip_rule : rule := {|
  rx := seqs [WordB;
              Grp "addr" (alts [lits "localhost";
                                seqs [rpt (seqs [rpt d 1 3; chr "."]) 3 3; rpt d 1 3];
                                seqs [rpt (seqs [rpt (Chr hex) 1 4; chr ":"]) 7 7;
                                      rpt (Chr hex) 1 4]]);
              opt (seqs [chr ":"; Grp "port" (rpt d 1 5)]);
              WordB];
  rci := false;
  repl := fun t m =>
            let result := txt "{{IP}}" in
            match group t m "port" with
            | Some (_ :: _) => result ++ txt ":" ++ txt "{{PORT}}"
            | _ => result
            end |}.

(** [BankAccountRule] *)
Definition bank_account_rule : rule := {|
  rx := seqs [WordB; opt (Alt (rpt (Chr (crng "A" "Z")) 2 2) (lits "XX"));
              star sp; Alt (dn 2) (lits "XX");
              rpt (seqs [star sp; rpt (Chr (por [is_digit; cone "X"])) 4 4]) 6 6;
              WordB];
  rci := true;
  repl := const_repl (txt "{{BANK_ACCOUNT}}") |}.

(** [JwtRule] *)
Definition jwt_rule : rule := {|
  rx := seqs [WordB; plus (Chr b64url); chr "."; plus (Chr b64url); chr ".";
              plus (Chr b64url); WordB];
  rci := false;
  repl := validated (txt "{{JWT}}") is_possible_jwt |}.

Definition slash_dash : Z -> bool := por [cone "/"; cone "-"].

(** [InvoiceNumberRule] *)
Definition invoice_number_rule : rule := {|
  rx := seqs [WordB; alts [lits "FV"; lits "INV"; lits "INVOICE"]; Chr slash_dash; dn 4;
              Chr slash_dash; rpt d 3 6; WordB];
  rci := true;
  repl := const_repl (txt "{{INVOICE_NUMBER}}") |}.

(** [OrderNumberRule] *)
Definition order_number_rule : rule := {|
  rx := seqs [WordB; Alt (lits "ORD") (lits "ORDER"); opt (Chr (por [cone "-"; cone "_"]));
              rpt d 3 10; WordB];
  rci := true;
  repl := const_repl (txt "{{ORDER_NUMBER}}") |}.

(** [TransactionRefRule] *)
Definition transaction_ref_rule : rule := {|
  rx := seqs [WordB; rpt (Chr (crng "A" "Z")) 2 5; Chr (por [cone "-"; cone "_"]);
              rpt d 4 8; Chr (por [cone "-"; cone "_"]); rpt d 3 6; WordB];
  rci := true;
  repl := validated (txt "{{TRANSACTION_REF}}") is_possible_transaction_ref |}.

(** Month names of [DateWordRule], in the order of the source alternation.
    Non-ASCII letters: U+0144 (n acute), U+015B (s acute), U+017A (z acute). *)
Definition pl_months : list text :=
  [txt "stycze" ++ [324]; txt "stycznia"; txt "sty";
   txt "luty"; txt "lutego"; txt "lut";
   txt "marzec"; txt "marca"; txt "mar";
   txt "kwiecie" ++ [324]; txt "kwietnia"; txt "kwi";
   txt "maj"; txt "maja";
   txt "czerwiec"; txt "czerwca"; txt "cze";
   txt "lipiec"; txt "lipca"; txt "lip";
   txt "sierpie" ++ [324]; txt "sierpnia"; txt "sie";
   txt "wrzesie" ++ [324]; txt "wrze" ++ [347] ++ txt "nia"; txt "wrz";
   txt "pa" ++ [378] ++ txt "dziernik"; txt "pa" ++ [378] ++ txt "dziernika";
   txt "pa" ++ [378];
   txt "listopad"; txt "listopada"; txt "lis";
   txt "grudzie" ++ [324]; txt "grudnia"; txt "gru"].

Definition en_months : list string :=
  ["January"; "Jan"; "February"; "Feb"; "March"; "Mar"; "April"; "Apr"; "May";
   "June"; "Jun"; "July"; "Jul"; "August"; "Aug"; "September"; "Sep"; "October";
   "Oct"; "November"; "Nov"; "December"; "Dec"]%string.

Definition ordinal : regex := opt (alts [lits "st"; lits "nd"; lits "rd"; lits "th"]).

(** [DateWordRule] (IGNORECASE); the named groups are not used by the
    replacement and are left out. *)
Definition date_word_rule : rule :=
  let plm := alts (map lit pl_months) in
  let enm := alts (map lits en_months) in
  {| rx := seqs [NotBehind is_word;
                 alts [seqs [rpt d 1 2; plus sp; plm; plus sp; dn 4];
                       seqs [dn 4; plus sp; plm; plus sp; rpt d 1 2];
                       seqs [enm; plus sp; rpt d 1 2; ordinal;
                             Alt (seqs [chr ","; star sp]) (plus sp); dn 4];
                       seqs [rpt d 1 2; ordinal; plus sp; enm; plus sp; dn 4]];
                 NotAhead is_word];
     rci := true;
     repl := const_repl (txt "{{DATE_STR}}") |}.

Definition date_sep : regex := seqs [star sp; Chr (por [cone "-"; cone "."; cone "/"]); star sp].
Definition month_re : regex :=
  Alt (seqs [chr "0"; Chr (crng "1" "9")]) (seqs [chr "1"; Chr (crng "0" "2")]).
Definition day_re : regex :=
  alts [seqs [chr "0"; Chr (crng "1" "9")]; seqs [Chr (crng "1" "2"); d];
        seqs [chr "3"; Chr (crng "0" "1")]].

(** [DateNumberRule] (no flags). *)
Definition date_number_rule : rule := {|
  rx := seqs [NotBehind is_digit;
              Alt (seqs [dn 4; date_sep; month_re; date_sep; day_re])
                  (seqs [day_re; date_sep; month_re; date_sep; dn 4]);
              NotAhead is_digit];
  rci := false;
  repl := const_repl (txt "{{DATE_NUM}}") |}.

(** [$], euro, pound, yen, rouble and rupee signs. *)
Definition currency_symbols : regex :=
  Chr (por [cone "$"; fun c => c =? 8364; fun c => c =? 163; fun c => c =? 165;
            fun c => c =? 8381; fun c => c =? 8377]).

Definition currency_codes : regex :=
  alts (map lits ["USD"; "EUR"; "GBP"; "PLN"; "CHF"; "CAD"; "AUD"; "JPY"; "NOK";
                  "SEK"; "DKK"; "CZK"; "HUF"; "RUB"; "CNY"; "INR"]%string).

(** Polish currency words; U+0142 is l with stroke, U+00F3 o acute. *)
Definition currency_words : regex :=
  alts (map lit
    [txt "z" ++ [322]; txt "z" ++ [322] ++ txt "."; txt "z" ++ [322] ++ txt "oty";
     txt "z" ++ [322] ++ txt "ote"; txt "z" ++ [322] ++ txt "otych";
     txt "z" ++ [322] ++ txt "otymi";
     txt "dolar"; txt "dolara"; txt "dolar" ++ [243] ++ txt "w"; txt "dolary";
     txt "dolarami";
     txt "euro"; txt "eur."; txt "eura"; txt "eur" ++ [243] ++ txt "w"; txt "eurem";
     txt "funt"; txt "funty"; txt "funt" ++ [243] ++ txt "w"; txt "funtami";
     txt "rubel"; txt "rubla"; txt "rubli"; txt "rublami"]).

Definition magnitude_words : regex := alts [lits "tys."; lits "mln"; lits "mld"].

Definition money_number : regex :=
  seqs [rpt d 1 3;
        star (seqs [Chr (por [cone " "; cone ","; cone "."; fun c => c =? 160]); dn 3]);
        opt (seqs [Chr (por [cone "."; cone ","]); rpt d 1 2])].

(** [MoneyRule] (IGNORECASE). *)
Definition money_rule : rule := {|
  rx := seqs [NotBehind is_word; markers;
              Alt (seqs [Alt currency_symbols currency_codes; lazy_star sp; money_number;
                         opt (seqs [star sp; magnitude_words]);
                         opt (seqs [star sp; alts [currency_symbols; currency_codes;
                                                   currency_words]])])
                  (seqs [money_number; opt (seqs [star sp; magnitude_words]); star sp;
                         alts [currency_symbols; currency_codes; currency_words]]);
              markers; NotAhead is_word];
  rci := true;
  repl := const_repl (txt "{{MONEY}}") |}.

(** [PostalCodeRule] *)
Definition postal_code_rule : rule := {|
  rx := seqs [NotBehind is_digit; markers; Grp "code" (seqs [dn 2; opt (chr "-"); dn 3]);
              markers; NotAhead is_digit];
  rci := true;
  repl := const_repl (txt "{{POSTAL_CODE}}") |}.

(** [HealthIdRule] *)
Definition health_id_rule : rule := {|
  rx := seqs [WordB; dn 8; chr "/"; dn 3; WordB];
  rci := false;
  repl := const_repl (txt "{{HEALTH_CODE}}") |}.

(** [CarPlateRule] *)
Definition car_plate_rule : rule := {|
  rx := seqs [WordB; car_plate_regex; WordB];
  rci := true;
  repl := validated (txt "{{CAR_PLATE}}") is_valid_car_plate |}.

(** [SimCardRule] *)
Definition sim_card_rule : rule := {|
  rx := seqs [WordB; rpt (seqs [dn 4; opt sp]) 4 4; dn 3; WordB];
  rci := false;
  repl := validated (txt "{{SIM_CARD}}") is_valid_sim_iccid |}.

(** [SslCertRule] *)
Definition ssl_cert_rule : rule := {|
  rx := seqs [WordB; rpt (Chr hex) 16 40; WordB];
  rci := false;
  repl := validated (txt "{{SSL_CERT}}") is_valid_ssl_serial |}.

(** Polish letters listed in [StreetNameRule]'s classes. *)
Definition pl_letter : Z -> bool :=
  fun c => existsb (Z.eqb c) [260; 261; 262; 263; 280; 281; 321; 322; 323; 324; 211; 243;
                              346; 347; 377; 378; 379; 380].

(** [StreetNameRule] (IGNORECASE); U+015B is s acute, U+017C z dot. *)
Definition street_name_rule : rule :=
  let typ := alts [seqs [lits "ul"; opt (chr ".")]; lits "ulica";
                   seqs [lits "al"; opt (chr ".")]; lits "aleja";
                   seqs [lits "pl"; opt (chr ".")]; lits "plac"; lits "skwer";
                   seqs [lits "os"; opt (chr ".")]; lits "osiedle"; lits "rondo";
                   lits "droga"; seqs [lits "dr"; opt (chr ".")]; lits "trakt";
                   seqs [lits "t"; opt (chr ".")];
                   lit ([347] ++ txt "cie" ++ [380] ++ txt "ka");
                   seqs [lit [347]; opt (chr ".")]] in
  let name := rpt (seqs [plus sp; Chr (por [crng "A" "Z"; crng "a" "z"; pl_letter]);
                         star (Chr (por [crng "A" "Z"; crng "a" "z"; is_digit; pl_letter;
                                         cone "-"]))]) 1 5 in
  let number := opt (seqs [plus sp; plus d; opt (Chr (por [crng "A" "Z"; crng "a" "z"]));
                           opt (seqs [chr "/"; plus d])]) in
  {| rx := seqs [WordB; typ; name; number; WordB];
     rci := true;
     repl := const_repl (txt "{{STREET}}") |}.

Definition phone_sep : regex := opt (Chr (por [is_space; cone "-"])).

(** [PhoneRule] *)
Definition phone_rule : rule := {|
  rx := seqs [WordB;
              Alt (seqs [dn 3; phone_sep; dn 3; phone_sep; dn 3])
                  (seqs [dn 2; phone_sep; dn 3; phone_sep; dn 2; phone_sep; dn 2]);
              WordB];
  rci := false;
  repl := const_repl (txt "{{PHONE}}") |}.

(** [SocialIdRule] *)
Definition social_id_rule : rule := {|
  rx := seqs [WordB; lits "fbid"; rpt_min d 8; WordB];
  rci := true;
  repl := const_repl (txt "{{SOCIAL_ID}}") |}.

(** [SimplePersonalDataRule] (beta).  The surname set [_SURNAME_SET] is
    loaded from CSV resources at import time; it is a parameter here
    (membership of a lower-cased token). *)
Definition personal_data_rule (surnames : text -> bool) : rule := {|
  rx := seqs [WordB; plus w; WordB];
  rci := true;
  repl := fun t m =>
            let token := group0 t m in
            let lowered := str_lower token in
            if surnames lowered
               && (match token with c :: _ => is_upper c | [] => false end)
               && (2 <? List.length token)%nat
            then txt "{{MASKED}}" else token |}.

(* ------------------------------------------------------------------ *)
(** ** The masker ([fast_masker/core/masker.py]) *)

(** [USE_BETA_FEATURES] comes from the [llm_router_lib] package; [beta] is
    [None] when it is off and [Some surnames] when it is on. *)
Definition beta_config := option (text -> bool).

(** [__ALL_MASKER_RULES], with [None] for the disabled beta entry. *)
Definition all_masker_rules_raw (beta : beta_config) : list (option rule) :=
  [Some credit_card_rule; Some vin_rule; Some pesel_tagged_rule; Some pesel_rule;
   Some nip_rule; Some krs_rule; Some regon_rule;
   Some nrb_rule; Some mac_address_rule; Some passport_rule; Some id_card_rule;
   Some ssn_rule;
   Some phone_international_rule;
   Some email_rule; Some url_rule; Some ip_rule; Some bank_account_rule;
   Some jwt_rule; Some invoice_number_rule; Some order_number_rule;
   Some transaction_ref_rule;
   Some date_word_rule; Some date_number_rule; Some money_rule;
   Some postal_code_rule; Some health_id_rule; Some car_plate_rule; Some sim_card_rule;
   Some ssl_cert_rule;
   Some street_name_rule; Some phone_rule; Some social_id_rule;
   match beta with Some sn => Some (personal_data_rule sn) | None => None end].

(** [ALL_MASKER_RULES = [cls for cls in __ALL_MASKER_RULES if cls]] *)
Definition all_masker_rules (beta : beta_config) : list rule :=
  flat_map (fun o => match o with Some r => [r] | None => [] end) (all_masker_rules_raw beta).

Record fast_masker := { rules : list rule }.

(** [FastMasker.__init__]: [self.rules = rules or self.ALL_MASKER_RULES];
    [None] and the empty list are both falsy. *)
Definition fast_masker_init (beta : beta_config) (rules_arg : option (list rule)) : fast_masker :=
  {| rules := match rules_arg with
              | Some ((_ :: _) as l) => l
              | _ => all_masker_rules beta
              end |}.

(** [FastMasker._mask_text] *)
Definition mask_text_with (rs : list rule) (t : text) : text :=
  fold_left (fun acc r => apply r acc) rs t.

Definition fm_mask_text (fm : fast_masker) (t : text) : text := mask_text_with (rules fm) t.

(** [FastMasker().mask_text] *)
Definition mask_text (beta : beta_config) (t : text) : text :=
  fm_mask_text (fast_masker_init beta None) t.

(* ------------------------------------------------------------------ *)
(** ** The VIN check as the specification states it *)

(** Transliteration table written in the specification:
    A..H -> 1..8, J..N -> 1..5, P -> 7, R -> 9, S..Z -> 2..9, digits to
    themselves (the ISO 3779 table). *)
Definition vin_translation_spec : list (Z * Z) :=
  combine (txt "ABCDEFGHJKLMNPRSTUVWXYZ")
          [1; 2; 3; 4; 5; 6; 7; 8; 1; 2; 3; 4; 5; 7; 9; 2; 3; 4; 5; 6; 7; 8; 9]
  ++ combine (txt "0123456789") (map Z.of_nat (seq 0 10)).

Definition is_valid_vin_spec (vin : text) : bool :=
  (List.length vin =? 17)%nat && forallb vin_class vin &&
  match nth_error vin 8 with
  | Some c => c =? vin_check_char (vin_total vin_translation_spec vin mod 11)
  | None => false
  end.

(* ------------------------------------------------------------------ *)
(** ** Rules that may raise *)

(** [FastMasker.rules] may hold any [MaskerRuleI]; a rule's [apply] either
    returns a text or raises (exception class name). *)
Inductive outcome : Type :=
| Ok (t : text)
| Raised (exc : string).

Definition erule := text -> outcome.

Definition lift_rule (R : rule) : erule := fun t => Ok (apply R t).

(** Python's sequencing of statements as an error monad: the rest of a block
    runs only after normal completion, an exception skips it. *)
Definition ret_exc (t : text) : outcome := Ok t.

Definition bind_exc (o : outcome) (k : text -> outcome) : outcome :=
  match o with
  | Ok t => k t
  | Raised e => Raised e
  end.

(** [FastMasker._mask_text]:
    [for rule in self.rules: text = rule.apply(text)] then [return text];
    the loop body is one statement and there is no [try]. *)
Definition mask_text_exc (rs : list erule) (t : text) : outcome :=
  fold_left (fun acc r => bind_exc acc r) rs (ret_exc t).

(** The behaviour the specification asks for: a raising rule is skipped and
    the loop continues with the next rule. *)
Fixpoint mask_text_isolated (rs : list erule) (t : text) : outcome :=
  match rs with
  | [] => Ok t
  | r :: rs' => match r t with
                | Ok t' => mask_text_isolated rs' t'
                | Raised _ => mask_text_isolated rs' t
                end
  end.

(* ------------------------------------------------------------------ *)
(** ** Payload traversal ([maskers/payload_interface.py]) *)

(** Dictionary keys are hashable: [str] or another hashable object
    (number, [None], tuple, ...), which [mask_payload] never changes. *)
Inductive pykey : Type :=
| KStr (s : text)
| KOther (tag : Z).

Inductive map_class : Type := PyDict | PyOrderedDict.
Inductive seq_class : Type := PyList | PyTuple.

Inductive pyval : Type :=
| PStr (s : text)
| PMap (cls : map_class) (entries : list (pykey * pyval))   (* insertion order *)
| PSeq (cls : seq_class) (items : list pyval)
| POther (tag : Z).

Definition pykey_eq_dec (a b : pykey) : {a = b} + {a <> b}.
Proof. decide equality; [apply list_eq_dec, Z.eq_dec | apply Z.eq_dec]. Defined.

(** [d[k] = v] on a dict: an existing key keeps its position. *)
Fixpoint dict_set {V : Type} (dct : list (pykey * V)) (k : pykey) (v : V) : list (pykey * V) :=
  match dct with
  | [] => [(k, v)]
  | (k', v') :: dct' =>
      if pykey_eq_dec k k' then (k', v) :: dct' else (k', v') :: dict_set dct' k v
  end.

Fixpoint dict_get {V : Type} (dct : list (pykey * V)) (k : pykey) : option V :=
  match dct with
  | [] => None
  | (k', v') :: dct' => if pykey_eq_dec k k' then Some v' else dict_get dct' k
  end.

Section Traversal.
  (** [_mask_text] of the concrete masker. *)
  Variable mask_text_fn : text -> text.

  (** [mask_payload] on a key: only an exact [str] is masked. *)
Definition mask_key (k : pykey) : pykey :=
    match k with
    | KStr s => KStr (mask_text_fn s)
    | KOther t => KOther t
    end.

  (** [mask_payload], dispatching on [type(payload) is ...]; the fold is
      [_mask_dict] ([_p[_k] = self.mask_payload(v)] in iteration order,
      starting from an empty dict) and [map] is [_mask_list]. *)
Fixpoint mask_payload (v : pyval) : pyval :=
    match v with
    | PStr s => PStr (mask_text_fn s)
    | PMap PyDict es =>
        PMap PyDict (fold_left (fun acc e => dict_set acc (mask_key (fst e)) (mask_payload (snd e)))
                               es [])
    | PSeq PyList xs => PSeq PyList (map mask_payload xs)
    | other => other
    end.
End Traversal.

(** Matches visited by [pattern.sub], in order. *)
Fixpoint found_go (ci : bool) (s : text) (r : regex) (fuel : nat) (pos : nat) (must : bool)
  : list rmatch :=
  match fuel with
  | O => []
  | S fuel' =>
      match search ci s r pos must with
      | None => []
      | Some (b, e, g) =>
          {| m_start := b; m_end := e; m_caps := g |} :: found_go ci s r fuel' e (e =? b)%nat
      end
  end.

Definition found (ci : bool) (s : text) (r : regex) : list rmatch :=
  found_go ci s r (S (2 * List.length s)) 0 false.

(** Lower-cased tokens that [SimplePersonalDataRule] looks up in the surname
    set: capitalised word tokens longer than two characters. *)
Definition surname_candidates (t : text) : list text :=
  map (fun m => str_lower (group0 t m))
      (filter (fun m => let token := group0 t m in
                        (match token with c :: _ => is_upper c | [] => false end)
                        && (2 <? List.length token)%nat)
              (found true t (rx (personal_data_rule (fun _ => false))))).

(** A beta configuration whose surname set contains none of [ws]. *)
Definition beta_avoids (beta : beta_config) (ws : list text) : Prop :=
  match beta with
  | None => True
  | Some sn => forall x, In x ws -> sn x = false
  end.

Definition text_eqb (a b : text) : bool :=
  if list_eq_dec Z.eq_dec a b then true else false.

(** The placeholder tokens emitted by the default rule set. *)
Definition placeholders : list text :=
  map txt ["{{CREDIT_CARD}}"; "{{VIN}}"; "{{PESEL_TAGGED}}"; "{{PESEL}}"; "{{NIP}}";
           "{{KRS}}"; "{{REGON}}"; "{{NRB}}"; "{{MAC_ADDRESS}}"; "{{PASSPORT}}";
           "{{ID_CARD}}"; "{{SSN}}"; "{{PHONE_INTERNATIONAL}}"; "{{EMAIL}}"; "{{URL}}";
           "{{IP}}"; "{{PORT}}"; "{{BANK_ACCOUNT}}"; "{{JWT}}"; "{{INVOICE_NUMBER}}";
           "{{ORDER_NUMBER}}"; "{{TRANSACTION_REF}}"; "{{DATE_STR}}"; "{{DATE_NUM}}";
           "{{MONEY}}"; "{{POSTAL_CODE}}"; "{{HEALTH_CODE}}"; "{{CAR_PLATE}}";
           "{{SIM_CARD}}"; "{{SSL_CERT}}"; "{{STREET}}"; "{{PHONE}}"; "{{SOCIAL_ID}}";
           "{{MASKED}}"]%string.

(** The lower-cased words inside the placeholders. *)
Definition placeholder_words : list text :=
  map txt ["credit_card"; "vin"; "pesel_tagged"; "pesel"; "nip"; "krs"; "regon"; "nrb";
           "mac_address"; "passport"; "id_card"; "ssn"; "phone_international"; "email";
           "url"; "port"; "bank_account"; "jwt"; "invoice_number"; "order_number";
           "transaction_ref"; "date_str"; "date_num"; "money"; "postal_code";
           "health_code"; "car_plate"; "sim_card"; "ssl_cert"; "street"; "phone";
           "social_id"; "masked"]%string.

(** Two placeholders written next to each other. *)
Definition placeholder_pairs : list text :=
  flat_map (fun p => map (fun q => p ++ q) placeholders) placeholders.

Definition idempotence_example : text := txt "a@b.com_4111 1111 1111 1111".

Definition vin_example : text := txt "1M8GDM9AXKP042788".

Definition raising_rule : erule := fun _ => Raised "RuntimeError"%string.

(** Code points of the ASCII digits. *)
Definition digit_codes : list Z := map Z.of_nat (seq 48 10).
(** A class that does not distinguish between digits. *)
Definition unif_b (p : Z -> bool) : bool := forallb (fun c => Bool.eqb (p c) (p 48)) digit_codes.
(** A class that contains no digit. *)
Definition nodig_b (p : Z -> bool) : bool := forallb (fun c => negb (p c)) digit_codes.
(** Every class of the expression treats all digits alike. *)
Fixpoint uniform_b (r : regex) : bool :=
  match r with
  | Eps | WordB => true
  | Chr p | NotBehind p | NotAhead p => unif_b p
  | Cat r1 r2 | Alt r1 r2 => uniform_b r1 && uniform_b r2
  | Rep r1 _ _ _ | Grp _ r1 => uniform_b r1
  end.
(** Every match of the expression consumes a character that is not a digit. *)
Fixpoint nd_b (r : regex) : bool :=
  match r with
  | Chr p => nodig_b p
  | Cat r1 r2 => nd_b r1 || nd_b r2
  | Alt r1 r2 => nd_b r1 && nd_b r2
  | Rep r1 mn _ _ => (0 <? mn)%nat && nd_b r1
  | Grp _ r1 => nd_b r1
  | _ => false
  end.
(** Two characters that are equal or both digits. *)
Definition sim_char (a b : Z) : Prop := a = b \/ (is_digit a = true /\ is_digit b = true).

Definition zeros11 : text := repeat 48 11.

(** The PESEL check as the specification states it: the first ten digits
    weighted by [1,3,7,9,1,3,7,9,1,3], checksum [(10 - sum mod 10) mod 10],
    compared with the eleventh digit. *)
Definition pesel_spec_ok (s : text) : Prop :=
  let d k := digit_val (nth k s 0) in
  let weighted := fold_right Z.add 0
                    (map (fun k => nth k [1; 3; 7; 9; 1; 3; 7; 9; 1; 3] 0 * d k) (seq 0 10)) in
  (10 - weighted mod 10) mod 10 = d 10%nat.

(** The Luhn sum as the specification states it: reverse the digits,
    double every second one from the right, subtract 9 from doubled values
    above 9, and sum. *)
Definition luhn_spec_sum (digits : text) : Z :=
  let rev_digits := map digit_val (rev digits) in
  fold_right Z.add 0
    (map (fun p => if Nat.odd (fst p)
                   then (if 2 * snd p >? 9 then 2 * snd p - 9 else 2 * snd p)
                   else snd p)
         (combine (seq 0 (List.length rev_digits)) rev_digits)).

(** One iteration of [_mask_dict]. *)
Definition dict_step (f : text -> text) (acc : list (pykey * pyval)) (e : pykey * pyval)
  : list (pykey * pyval) :=
  dict_set acc (mask_key f (fst e)) (mask_payload f (snd e)).

Definition collision_example : list (pykey * pyval) :=
  [(KStr (txt "a@b.com"), PStr (txt "first")); (KStr (txt "c@d.com"), PStr (txt "second"))].

(** Upper bound test of a counted repetition [{mn,mx}]. *)
Definition rep_bound (len : nat) (mx : option nat) : bool :=
  match mx with Some m => (len <=? m)%nat | None => true end.

(* ================================================================== *)
(** * Properties *)


(** ** Generic lemmas on [re.sub] *)

Lemma sub_go_ext : forall ci s r (repl1 repl2 : rmatch -> text) fuel pos must,
  (forall m, In m (found_go ci s r fuel pos must) -> repl1 m = repl2 m) ->
  sub_go ci s r repl1 fuel pos must = sub_go ci s r repl2 fuel pos must.
Proof.
  induction fuel as [|fuel IH]; intros pos must H; simpl; [reflexivity|].
  simpl in H.
  destruct (search ci s r pos must) as [[[b e] g]|]; [|reflexivity].
  rewrite (H _ (or_introl eq_refl)).
  rewrite (IH e (e =? b)%nat); [reflexivity|].
  intros m Hm. apply H. right. exact Hm.
Qed.

Lemma apply_ext : forall R1 R2 t,
  rx R1 = rx R2 -> rci R1 = rci R2 ->
  (forall m, In m (found (rci R1) t (rx R1)) -> repl R1 t m = repl R2 t m) ->
  apply R1 t = apply R2 t.
Proof.
  intros R1 R2 t Hrx Hci H. unfold apply, sub. rewrite <- Hrx, <- Hci.
  apply sub_go_ext. exact H.
Qed.

Lemma personal_data_ext : forall (sn : text -> bool) t,
  (forall x, In x (surname_candidates t) -> sn x = false) ->
  apply (personal_data_rule sn) t = apply (personal_data_rule (fun _ => false)) t.
Proof.
  intros sn t H. apply apply_ext; [reflexivity | reflexivity |].
  intros m Hm. simpl.
  destruct (match group0 t m with c :: _ => is_upper c | [] => false end
            && (2 <? List.length (group0 t m))%nat) eqn:E.
  - rewrite (H (str_lower (group0 t m))).
    + reflexivity.
    + unfold surname_candidates. apply (in_map (fun m => str_lower (group0 t m))).
      apply filter_In. split; [exact Hm | exact E].
  - destruct (sn (str_lower (group0 t m))); cbn beta iota; [rewrite andb_true_l, E|]; reflexivity.
Qed.

Lemma all_masker_rules_beta : forall sn,
  all_masker_rules (Some sn) = all_masker_rules None ++ [personal_data_rule sn].
Proof. reflexivity. Qed.

Lemma mask_text_beta : forall sn t,
  mask_text (Some sn) t = apply (personal_data_rule sn) (mask_text None t).
Proof.
  intros sn t. unfold mask_text, fm_mask_text, mask_text_with. simpl rules.
  rewrite all_masker_rules_beta, fold_left_app. reflexivity.
Qed.

(** Evaluating the full rule set on a concrete text, for every beta
    configuration whose surname set avoids the candidates. *)
Lemma mask_text_concrete : forall beta t out ws,
  mask_text None t = out ->
  apply (personal_data_rule (fun _ => false)) out = out ->
  forallb (fun x => existsb (text_eqb x) ws) (surname_candidates out) = true ->
  beta_avoids beta ws ->
  mask_text beta t = out.
Proof.
  intros [sn|] t out ws H1 H2 H3 H4; [|exact H1].
  rewrite mask_text_beta, H1, personal_data_ext; [exact H2|].
  intros x Hx. apply H4. rewrite forallb_forall in H3. specialize (H3 x Hx).
  apply existsb_exists in H3. destruct H3 as [y [Hy Heq]].
  unfold text_eqb in Heq. destruct (list_eq_dec Z.eq_dec x y); [subst; exact Hy | discriminate].
Qed.

Lemma text_eqb_true : forall a b, text_eqb a b = true -> a = b.
Proof.
  intros a b H. unfold text_eqb in H.
  destruct (list_eq_dec Z.eq_dec a b); [assumption | discriminate].
Qed.

Lemma existsb_text_in : forall p l, existsb (text_eqb p) l = true -> In p l.
Proof.
  intros p l H. apply existsb_exists in H. destruct H as [y [Hy Heq]].
  apply text_eqb_true in Heq. subst. exact Hy.
Qed.

Lemma forallb_text_fixed : forall (f : text -> text) l,
  forallb (fun t => text_eqb (f t) t) l = true -> forall p, In p l -> f p = p.
Proof.
  intros f l H p Hp. rewrite forallb_forall in H. apply text_eqb_true. exact (H p Hp).
Qed.

Lemma fold_exc_raised : forall rs e,
  fold_left (fun acc r => bind_exc acc r) rs (Raised e) = Raised e.
Proof. induction rs as [|r rs IH]; intros e; [reflexivity | apply IH]. Qed.

Lemma mask_text_exc_nil : forall t, mask_text_exc [] t = Ok t.
Proof. reflexivity. Qed.

Lemma mask_text_exc_cons : forall r rs t,
  mask_text_exc (r :: rs) t = bind_exc (r t) (mask_text_exc rs).
Proof.
  intros r rs t. unfold mask_text_exc. cbn [fold_left]. unfold ret_exc at 1. cbn [bind_exc].
  destruct (r t) as [t'|e]; [reflexivity | apply fold_exc_raised].
Qed.

Lemma mask_text_exc_lift : forall rs t,
  mask_text_exc (map lift_rule rs) t = Ok (mask_text_with rs t).
Proof.
  induction rs as [|R rs IH]; intros t; [reflexivity|].
  cbn [map]. rewrite mask_text_exc_cons. unfold lift_rule at 1. cbn [bind_exc].
  rewrite IH. reflexivity.
Qed.

Lemma mask_text_exc_app : forall pre post t,
  mask_text_exc (pre ++ post) t = bind_exc (mask_text_exc pre t) (mask_text_exc post).
Proof.
  induction pre as [|r pre IH]; intros post t; [reflexivity|].
  cbn [app]. rewrite !mask_text_exc_cons.
  destruct (r t) as [t'|e]; cbn [bind_exc]; [apply IH | reflexivity].
Qed.

(** ** Digit strings: simulation and exclusion lemmas *)

Lemma is_digit_cases : forall c, is_digit c = true -> In c digit_codes.
Proof.
  intros c H. unfold is_digit, rng in H. apply andb_true_iff in H as [H1 H2].
  apply Z.leb_le in H1. apply Z.leb_le in H2.
  assert (c = 48 \/ c = 49 \/ c = 50 \/ c = 51 \/ c = 52 \/ c = 53 \/ c = 54 \/ c = 55
          \/ c = 56 \/ c = 57) by lia.
  simpl. lia.
Qed.

Lemma lower_digit : forall c, is_digit c = true -> lower c = c /\ upper c = c.
Proof.
  intros c H. apply is_digit_cases in H. simpl in H.
  repeat (destruct H as [<- | H]; [split; reflexivity |]). destruct H.
Qed.

Lemma unif_b_spec : forall p a b, unif_b p = true -> is_digit a = true -> is_digit b = true ->
  p a = p b.
Proof.
  intros p a b H Ha Hb. unfold unif_b in H. rewrite forallb_forall in H.
  apply is_digit_cases in Ha, Hb.
  pose proof (Bool.eqb_prop _ _ (H a Ha)) as Ea.
  pose proof (Bool.eqb_prop _ _ (H b Hb)) as Eb. congruence.
Qed.

Lemma is_word_digit : forall c, is_digit c = true -> is_word c = true.
Proof. intros c H. unfold is_word. rewrite H. rewrite orb_true_r. reflexivity. Qed.

Lemma rep_loop_ext : forall m1 m2 k1 k2 gr,
  (forall c1 c2, (forall j g, c1 j g = c2 j g) -> forall i g, m1 c1 i g = m2 c2 i g) ->
  (forall j g, k1 j g = k2 j g) ->
  forall fuel mn mx i g, rep_loop m1 k1 gr fuel mn mx i g = rep_loop m2 k2 gr fuel mn mx i g.
Proof.
  intros m1 m2 k1 k2 gr Hm Hk.
  induction fuel as [|fuel IH]; intros mn mx i g; simpl; [reflexivity|].
  destruct mn as [|mn'].
  - assert (Hc : forall j g',
              (if (i <? j)%nat then rep_loop m1 k1 gr fuel 0 (dec_opt mx) j g' else None) =
              (if (i <? j)%nat then rep_loop m2 k2 gr fuel 0 (dec_opt mx) j g' else None)).
    { intros j g'. destruct (i <? j)%nat; [apply IH | reflexivity]. }
    rewrite (Hm _ _ Hc i g), (Hk i g). reflexivity.
  - apply Hm. intros j g'. apply IH.
Qed.

Lemma rep_loop_none : forall m k gr,
  (forall c, (forall j g, c j g = None) -> forall i g, m c i g = None) ->
  (forall j g, k j g = None) ->
  forall fuel mn mx i g, rep_loop m k gr fuel mn mx i g = None.
Proof.
  intros m k gr Hm Hk.
  induction fuel as [|fuel IH]; intros mn mx i g; simpl; [reflexivity|].
  destruct mn as [|mn'].
  - assert (Hc : forall j g',
              (if (i <? j)%nat then rep_loop m k gr fuel 0 (dec_opt mx) j g' else None) = None).
    { intros j g'. destruct (i <? j)%nat; [apply IH | reflexivity]. }
    rewrite (Hm _ Hc i g), Hk. destruct mx as [[|]|]; destruct gr; reflexivity.
  - apply Hm. intros j g'. apply IH.
Qed.

Lemma mt_k_none : forall ci s r k, (forall j g, k j g = None) ->
  forall i g, mt ci s r k i g = None.
Proof.
  intros ci s r. induction r as [| p | r1 IH1 r2 IH2 | r1 IH1 r2 IH2 | r1 IH mn0 mx0 gr | n r1 IH
                   | | p | p]; intros k Hk i g; simpl.
  - apply Hk.
  - destruct (at_ s i); [destruct (ctest ci p z); [apply Hk|]|]; reflexivity.
  - apply IH1. intros j g'. apply IH2. exact Hk.
  - rewrite (IH1 k Hk i g). apply IH2. exact Hk.
  - change (rep_loop (mt ci s r1) k gr (S (mn0 + List.length s)) mn0 mx0 i g = None).
    apply rep_loop_none; [| exact Hk]. intros c Hc. apply IH. exact Hc.
  - apply IH. intros j g'. apply Hk.
  - destruct (is_boundary s i); [apply Hk | reflexivity].
  - destruct i as [|i]; [apply Hk|].
    destruct (at_ s i); [destruct (ctest ci p z); [reflexivity|]|]; apply Hk.
  - destruct (at_ s i); [destruct (ctest ci p z); [reflexivity|]|]; apply Hk.
Qed.

Section Simulation.
  Variable ci : bool.
  Variables s1 s2 : text.
  Hypothesis Hsim : Forall2 sim_char s1 s2.

Lemma sim_length : List.length s1 = List.length s2.
  Proof. exact (Forall2_length Hsim). Qed.

Lemma at_sim : forall i,
    (at_ s1 i = None /\ at_ s2 i = None) \/
    exists a b, at_ s1 i = Some a /\ at_ s2 i = Some b /\ sim_char a b.
  Proof.
    unfold at_. induction Hsim as [|a b l1 l2 Hab Hl IH]; intros [|i]; simpl.
    - left. split; reflexivity.
    - left. split; reflexivity.
    - right. exists a, b. repeat split. exact Hab.
    - apply IH. exact Hl.
  Qed.

Lemma ctest_sim : forall p a b, unif_b p = true -> sim_char a b ->
    ctest ci p a = ctest ci p b.
  Proof.
    intros p a b Hp [<- | [Ha Hb]]; [reflexivity|].
    unfold ctest.
    destruct (lower_digit a Ha) as [-> ->]. destruct (lower_digit b Hb) as [-> ->].
    rewrite (unif_b_spec p a b Hp Ha Hb). reflexivity.
  Qed.

Lemma word_at_sim : forall i, word_at s1 i = word_at s2 i.
  Proof.
    intros i. unfold word_at.
    destruct (at_sim i) as [[-> ->] | [a [b [-> [-> [<- | [Ha Hb]]]]]]];
      [reflexivity | reflexivity |].
    rewrite (is_word_digit a Ha), (is_word_digit b Hb). reflexivity.
  Qed.

Lemma boundary_sim : forall i, is_boundary s1 i = is_boundary s2 i.
  Proof.
    intros [|i]; unfold is_boundary; rewrite !word_at_sim; reflexivity.
  Qed.

Lemma mt_sim : forall r, uniform_b r = true ->
    forall k1 k2, (forall j g, k1 j g = k2 j g) ->
    forall i g, mt ci s1 r k1 i g = mt ci s2 r k2 i g.
  Proof.
    induction r as [| p | r1 IH1 r2 IH2 | r1 IH1 r2 IH2 | r1 IH mn0 mx0 gr | n r1 IH
                   | | p | p]; intros Hu k1 k2 Hk i g; simpl in Hu |- *.
    - apply Hk.
    - destruct (at_sim i) as [[-> ->] | [a [b [-> [-> Hab]]]]]; [reflexivity|].
      rewrite (ctest_sim p a b Hu Hab). destruct (ctest ci p b); [apply Hk | reflexivity].
    - apply andb_true_iff in Hu as [Hu1 Hu2].
      apply IH1; [exact Hu1|]. intros j g'. apply IH2; [exact Hu2 | exact Hk].
    - apply andb_true_iff in Hu as [Hu1 Hu2].
      rewrite (IH1 Hu1 k1 k2 Hk i g), (IH2 Hu2 k1 k2 Hk i g). reflexivity.
    - change (rep_loop (mt ci s1 r1) k1 gr (S (mn0 + List.length s1)) mn0 mx0 i g =
              rep_loop (mt ci s2 r1) k2 gr (S (mn0 + List.length s2)) mn0 mx0 i g).
      rewrite sim_length. apply rep_loop_ext; [| exact Hk].
      intros c1 c2 Hc. apply IH; [exact Hu | exact Hc].
    - apply IH; [exact Hu|]. intros j g'. apply Hk.
    - rewrite boundary_sim. destruct (is_boundary s2 i); [apply Hk | reflexivity].
    - destruct i as [|i]; [apply Hk|].
      destruct (at_sim i) as [[-> ->] | [a [b [-> [-> Hab]]]]]; [apply Hk|].
      rewrite (ctest_sim p a b Hu Hab). destruct (ctest ci p b); [reflexivity | apply Hk].
    - destruct (at_sim i) as [[-> ->] | [a [b [-> [-> Hab]]]]]; [apply Hk|].
      rewrite (ctest_sim p a b Hu Hab). destruct (ctest ci p b); [reflexivity | apply Hk].
  Qed.

Lemma search_sim : forall r, uniform_b r = true ->
    forall pos must, search ci s1 r pos must = search ci s2 r pos must.
  Proof.
    intros r Hu pos must. unfold search. rewrite sim_length.
    generalize (List.length s2 - pos)%nat as n. intros n. revert pos must.
    induction n as [|n IH]; intros pos must; simpl; unfold match_at;
      rewrite (mt_sim r Hu _ _ (fun j g => eq_refl) pos []); [reflexivity|].
    destruct (mt ci s2 r _ pos []) as [[j g]|]; [reflexivity | apply IH].
  Qed.
End Simulation.

Lemma mt_nd : forall ci s, forallb is_digit s = true ->
  forall r, nd_b r = true -> forall k i g, mt ci s r k i g = None.
Proof.
  intros ci s Hs r. induction r as [| p | r1 IH1 r2 IH2 | r1 IH1 r2 IH2 | r1 IH mn0 mx0 gr | n r1 IH
                   | | p | p]; intros Hn k i g; simpl in Hn |- *; try discriminate.
  - unfold at_. destruct (nth_error s i) as [c|] eqn:E; [|reflexivity].
    assert (Hc : is_digit c = true).
    { rewrite forallb_forall in Hs. apply Hs. eapply nth_error_In. exact E. }
    unfold ctest. destruct (lower_digit c Hc) as [-> ->].
    unfold nodig_b in Hn. rewrite forallb_forall in Hn.
    specialize (Hn c (is_digit_cases c Hc)). apply negb_true_iff in Hn. rewrite Hn.
    destruct ci; reflexivity.
  - apply orb_true_iff in Hn as [Hn | Hn].
    + apply IH1. exact Hn.
    + apply mt_k_none. intros j g'. apply IH2. exact Hn.
  - apply andb_true_iff in Hn as [Hn1 Hn2]. rewrite (IH1 Hn1). apply IH2. exact Hn2.
  - apply andb_true_iff in Hn as [Hm Hn]. destruct mn0 as [|mn']; [discriminate|].
    simpl. apply IH. exact Hn.
  - apply IH. exact Hn.
Qed.

Lemma search_nd : forall ci s r pos must, forallb is_digit s = true -> nd_b r = true ->
  search ci s r pos must = None.
Proof.
  intros ci s r pos must Hs Hn. unfold search.
  generalize (List.length s - pos)%nat as n. intros n. revert pos must.
  induction n as [|n IH]; intros pos must; simpl; unfold match_at;
    rewrite (mt_nd ci s Hs r Hn); [reflexivity | apply IH].
Qed.

Lemma digits_sim_zeros : forall s, forallb is_digit s = true ->
  Forall2 sim_char s (repeat 48 (List.length s)).
Proof.
  induction s as [|c s IH]; intros H; simpl; [constructor|].
  apply andb_true_iff in H as [Hc Hs]. constructor; [| apply IH; exact Hs].
  right. split; [exact Hc | reflexivity].
Qed.

Lemma apply_no_match : forall R t, search (rci R) t (rx R) 0 false = None -> apply R t = t.
Proof.
  intros R t H. unfold apply, sub. simpl. rewrite H. reflexivity.
Qed.

Lemma apply_one_match : forall R t g,
  search (rci R) t (rx R) 0 false = Some (0%nat, List.length t, g) ->
  search (rci R) t (rx R) (List.length t) (List.length t =? 0)%nat = None ->
  apply R t = repl R t {| m_start := 0; m_end := List.length t; m_caps := g |}.
Proof.
  intros R t g H1 H2. unfold apply, sub. simpl. rewrite H1.
  assert (E : forall fuel, sub_go (rci R) t (rx R) (repl R t) fuel (List.length t)
                             (List.length t =? 0)%nat = []).
  { intros [|fuel]; simpl; [|rewrite H2]; apply skipn_all. }
  rewrite E, app_nil_r. reflexivity.
Qed.

Lemma search_digits11 : forall ci s r pos must,
  forallb is_digit s = true -> List.length s = 11%nat -> uniform_b r = true ->
  search ci s r pos must = search ci zeros11 r pos must.
Proof.
  intros ci s r pos must Hd Hl Hu.
  pose proof (digits_sim_zeros s Hd) as Hs. rewrite Hl in Hs.
  exact (search_sim ci s zeros11 Hs r Hu pos must).
Qed.

Lemma rule_fixes_digits11 : forall R s,
  forallb is_digit s = true -> List.length s = 11%nat ->
  (uniform_b (rx R) && negb (search_any (rci R) zeros11 (rx R))) || nd_b (rx R) = true ->
  apply R s = s.
Proof.
  intros R s Hd Hl H. apply apply_no_match.
  apply orb_true_iff in H as [H | H].
  - apply andb_true_iff in H as [Hu Hn].
    rewrite (search_digits11 _ s _ _ _ Hd Hl Hu).
    unfold search_any in Hn. destruct (search _ zeros11 _ 0 false); [discriminate | reflexivity].
  - apply search_nd; assumption.
Qed.

Lemma pesel_rule_fixes_invalid : forall s,
  forallb is_digit s = true -> List.length s = 11%nat -> is_valid_pesel s = false ->
  apply pesel_rule s = s.
Proof.
  intros s Hd Hl Hv.
  rewrite (apply_one_match pesel_rule s [("pesel"%string, (0%nat, 11%nat))]).
  - simpl repl. rewrite Hl.
    change (grp_or_empty s {| m_start := 0; m_end := 11; m_caps := [("pesel"%string, (0%nat, 11%nat))] |}
              "pesel") with (firstn 11 s).
    rewrite firstn_all2 by lia. rewrite Hv. reflexivity.
  - rewrite Hl, (search_digits11 _ s _ _ _ Hd Hl); vm_compute; reflexivity.
  - rewrite Hl, (search_digits11 _ s _ _ _ Hd Hl); vm_compute; reflexivity.
Qed.

Lemma personal_data_fixes_digits11 : forall sn s,
  forallb is_digit s = true -> List.length s = 11%nat ->
  apply (personal_data_rule sn) s = s.
Proof.
  intros sn s Hd Hl.
  rewrite (apply_one_match (personal_data_rule sn) s []).
  - simpl repl. unfold group0, slice. simpl m_start. simpl m_end.
    change (skipn 0 s) with s. rewrite Nat.sub_0_r, firstn_all.
    destruct s as [|c s']; [discriminate|].
    simpl in Hd. apply andb_true_iff in Hd as [Hc _].
    unfold is_upper. destruct (lower_digit c Hc) as [-> _]. rewrite Z.eqb_refl.
    simpl. rewrite andb_false_r. reflexivity.
  - rewrite Hl, (search_digits11 _ s _ _ _ Hd Hl); vm_compute; reflexivity.
  - rewrite Hl, (search_digits11 _ s _ _ _ Hd Hl); vm_compute; reflexivity.
Qed.

Lemma mask_text_with_fixed : forall rs t,
  Forall (fun R => apply R t = t) rs -> mask_text_with rs t = t.
Proof.
  unfold mask_text_with. induction rs as [|R rs IH]; intros t H; [reflexivity|].
  inversion H as [|R' rs' H1 H2]; subst. simpl. rewrite H1. apply IH. exact H2.
Qed.

Lemma mask_text_invalid_pesel : forall beta s,
  forallb is_digit s = true -> List.length s = 11%nat -> is_valid_pesel s = false ->
  mask_text beta s = s.
Proof.
  intros beta s Hd Hl Hv.
  assert (H0 : mask_text None s = s).
  { unfold mask_text, fm_mask_text. simpl rules. apply mask_text_with_fixed.
    unfold all_masker_rules, all_masker_rules_raw. simpl flat_map.
    repeat (apply Forall_cons;
            [first [ apply (pesel_rule_fixes_invalid s Hd Hl Hv)
                   | apply (rule_fixes_digits11 _ s Hd Hl); vm_compute; reflexivity ] |]).
    apply Forall_nil. }
  destruct beta as [sn|]; [|exact H0].
  rewrite mask_text_beta, H0. apply personal_data_fixes_digits11; assumption.
Qed.

(** ** Dicts *)

Section Dict.
  Context {V : Type}.

Lemma dict_set_keys : forall (acc : list (pykey * V)) k v k',
    In k' (map fst (dict_set acc k v)) <-> k' = k \/ In k' (map fst acc).
  Proof.
    induction acc as [|[k1 v1] acc IH]; intros k v k'; simpl.
    - intuition congruence.
    - destruct (pykey_eq_dec k k1) as [<- | Hne]; simpl; [intuition congruence|].
      rewrite IH. intuition congruence.
  Qed.

Lemma dict_set_nodup : forall (acc : list (pykey * V)) k v,
    NoDup (map fst acc) -> NoDup (map fst (dict_set acc k v)).
  Proof.
    induction acc as [|[k1 v1] acc IH]; intros k v H; simpl.
    - constructor; [tauto | constructor].
    - inversion H as [|x l Hx Hl]; subst.
      destruct (pykey_eq_dec k k1) as [<- | Hne]; simpl; constructor; try assumption.
      + rewrite dict_set_keys. intros [E | E]; [congruence | contradiction].
      + apply IH. exact Hl.
  Qed.

Lemma dict_set_in : forall (acc : list (pykey * V)) k v k' v',
    In (k', v') (dict_set acc k v) -> (k', v') = (k, v) \/ In (k', v') acc.
  Proof.
    induction acc as [|[k1 v1] acc IH]; intros k v k' v' H; simpl in H |- *.
    - intuition congruence.
    - destruct (pykey_eq_dec k k1) as [<- | Hne]; simpl in H.
      + intuition congruence.
      + destruct H as [H | H]; [tauto|]. apply IH in H. tauto.
  Qed.

Lemma dict_get_set_eq : forall (acc : list (pykey * V)) k v,
    dict_get (dict_set acc k v) k = Some v.
  Proof.
    induction acc as [|[k1 v1] acc IH]; intros k v; simpl.
    - destruct (pykey_eq_dec k k); [reflexivity | contradiction].
    - destruct (pykey_eq_dec k k1) as [<- | Hne]; simpl.
      + destruct (pykey_eq_dec k k); [reflexivity | contradiction].
      + destruct (pykey_eq_dec k k1); [contradiction | apply IH].
  Qed.

Lemma dict_get_set_neq : forall (acc : list (pykey * V)) k k' v, k' <> k ->
    dict_get (dict_set acc k' v) k = dict_get acc k.
  Proof.
    induction acc as [|[k1 v1] acc IH]; intros k k' v Hne; simpl.
    - destruct (pykey_eq_dec k k'); [congruence | reflexivity].
    - destruct (pykey_eq_dec k' k1) as [<- | Hne1]; simpl.
      + destruct (pykey_eq_dec k k'); [congruence | reflexivity].
      + destruct (pykey_eq_dec k k1); [reflexivity | apply IH; exact Hne].
  Qed.
End Dict.

Section Payload.
  Variable f : text -> text.

Lemma mask_payload_dict : forall es,
    mask_payload f (PMap PyDict es) = PMap PyDict (fold_left (dict_step f) es []).
  Proof. reflexivity. Qed.

Lemma fold_dict_keys : forall es acc k,
    In k (map fst (fold_left (dict_step f) es acc)) <->
    In k (map fst acc) \/ exists e, In e es /\ k = mask_key f (fst e).
  Proof.
    induction es as [|e es IH]; intros acc k; simpl.
    - split; [tauto|]. intros [H | [e [[] _]]]. exact H.
    - rewrite IH. unfold dict_step. rewrite dict_set_keys. split.
      + intros [[H | H] | [e' [He' Hk]]].
        * right. exists e. tauto.
        * left. exact H.
        * right. exists e'. tauto.
      + intros [H | [e' [[<- | He'] Hk]]]; [tauto | tauto |].
        right. exists e'. tauto.
  Qed.

Lemma fold_dict_nodup : forall es acc,
    NoDup (map fst acc) -> NoDup (map fst (fold_left (dict_step f) es acc)).
  Proof.
    induction es as [|e es IH]; intros acc H; simpl; [exact H|].
    apply IH. apply dict_set_nodup. exact H.
  Qed.

Lemma fold_dict_in : forall es acc k v,
    In (k, v) (fold_left (dict_step f) es acc) ->
    In (k, v) acc \/ exists k0 v0, In (k0, v0) es /\ k = mask_key f k0 /\ v = mask_payload f v0.
  Proof.
    induction es as [|[k1 v1] es IH]; intros acc k v H; simpl in H |- *; [tauto|].
    apply IH in H as [H | [k0 [v0 [H1 H2]]]].
    - unfold dict_step in H. simpl in H. apply dict_set_in in H as [H | H]; [|tauto].
      right. exists k1, v1. inversion H. tauto.
    - right. exists k0, v0. tauto.
  Qed.

Lemma fold_dict_get_other : forall es acc k,
    (forall e, In e es -> mask_key f (fst e) <> k) ->
    dict_get (fold_left (dict_step f) es acc) k = dict_get acc k.
  Proof.
    induction es as [|e es IH]; intros acc k H; simpl; [reflexivity|].
    rewrite IH; [| intros e' He'; apply H; right; exact He'].
    unfold dict_step. apply dict_get_set_neq. apply H. left. reflexivity.
  Qed.
End Payload.

Lemma dict_set_length_le : forall {V} (acc : list (pykey * V)) k v,
  (List.length (dict_set acc k v) <= S (List.length acc))%nat.
Proof.
  induction acc as [|[k1 v1] acc IH]; intros k v; simpl; [lia|].
  destruct (pykey_eq_dec k k1); simpl; [lia|]. specialize (IH k v). lia.
Qed.

Lemma dict_set_length_in : forall {V} (acc : list (pykey * V)) k v,
  In k (map fst acc) -> List.length (dict_set acc k v) = List.length acc.
Proof.
  induction acc as [|[k1 v1] acc IH]; intros k v H; simpl in H |- *; [contradiction|].
  destruct (pykey_eq_dec k k1) as [E | Hne]; simpl; [reflexivity|].
  rewrite IH; [reflexivity|]. destruct H as [H | H]; [congruence | exact H].
Qed.

Lemma fold_dict_length : forall f es acc,
  (List.length (fold_left (dict_step f) es acc) <= List.length acc + List.length es)%nat.
Proof.
  induction es as [|e es IH]; intros acc; simpl; [lia|].
  specialize (IH (dict_step f acc e)).
  change (List.length (dict_step f acc e))
    with (List.length (dict_set acc (mask_key f (fst e)) (mask_payload f (snd e)))) in IH.
  pose proof (dict_set_length_le acc (mask_key f (fst e)) (mask_payload f (snd e))). lia.
Qed.

(** ** Validators *)

Lemma pesel_iff : forall s, List.length s = 11%nat -> forallb is_digit s = true ->
     (is_valid_pesel s = true <-> pesel_spec_ok s).
Proof.
  intros s Hl Hd.
  do 11 (destruct s as [|? s]; [discriminate|]). destruct s; [|discriminate].
  unfold is_valid_pesel.
  change (str_isdigit _) with (forallb is_digit (z :: z0 :: z1 :: z2 :: z3 :: z4 :: z5 :: z6 :: z7 :: z8 :: z9 :: [])).
  rewrite Hd. simpl. unfold pesel_spec_ok. simpl. apply Z.eqb_eq.
Qed.

Lemma luhn_loop_sum : forall ds i tot,
  luhn_loop i ds tot =
  tot + fold_right Z.add 0
          (map (fun p => if Nat.odd (fst p)
                         then (if 2 * snd p >? 9 then 2 * snd p - 9 else 2 * snd p)
                         else snd p)
               (combine (seq i (List.length ds)) ds)).
Proof.
  induction ds as [|d0 ds IH]; intros i tot;
    cbn [luhn_loop seq combine map fold_right fst snd List.length]; [lia|].
  rewrite IH. cbn zeta. rewrite (Z.mul_comm d0 2).
  destruct (Nat.odd i); [destruct (2 * d0 >? 9)|]; lia.
Qed.

Lemma credit_iff : forall number,
     let cleaned := strip_chars (fun c => (c =? ch " ") || (c =? ch "-")) number in
     is_valid_credit_card number = true <->
     str_isdigit cleaned = true /\ (13 <= List.length cleaned <= 19)%nat /\
     luhn_spec_sum cleaned mod 10 = 0.
Proof.
  intros number cleaned. unfold is_valid_credit_card. fold cleaned.
  destruct (str_isdigit cleaned) eqn:Ed; cbn [negb];
    [| split; [discriminate | intros [H _]; discriminate]].
  destruct ((13 <=? List.length cleaned)%nat && (List.length cleaned <=? 19)%nat) eqn:E;
    cbn [negb].
  - apply andb_true_iff in E as [E1 E2]. apply Nat.leb_le in E1, E2.
    unfold luhn_checksum, luhn_spec_sum, digits_of.
    rewrite luhn_loop_sum, Z.add_0_l, length_map, Z.eqb_eq.
    split; [intros H; repeat split; auto | intros [_ [_ H]]; exact H].
  - split; [discriminate|]. intros [_ [[H1 H2] _]].
    apply Nat.leb_le in H1, H2. rewrite H1, H2 in E. discriminate.
Qed.

(** ** Claim C1 *)

(** Claim C1 (divergence): the VIN validator does not use the specified
    transliteration table.  The code's table, built by [enumerate] over the letters, maps J..Z to
    9..23; the ISO-valid VIN 1M8GDM9AXKP042788 (accepted by the specified
    check) is rejected by [is_valid_vin] and left unmasked by [VinRule]. *)
Theorem vin_code_rejects_spec_valid_vin :
  assoc vin_translation (ch "J") = Some 9 /\
  assoc vin_translation_spec (ch "J") = Some 1 /\
  is_valid_vin_spec vin_example = true /\
  is_valid_vin vin_example = false /\
  apply vin_rule vin_example = vin_example.
Proof. vm_compute. repeat split. Qed.

(** ** Claim C2 *)

(** Counterexample to claim C2: [mask_text] is not idempotent.  In
    [a@b.com_4111 1111 1111 1111] the card number follows the word
    character [_], so [CreditCardRule] (rule 0) sees no word boundary; the
    email placeholder emitted later by [EmailRule] ends in [}], which creates
    the boundary, and a second pass masks the card. *)
Lemma mask_text_not_idempotent :
  mask_text None idempotence_example = txt "{{EMAIL}}4111 1111 1111 1111" /\
  mask_text None (mask_text None idempotence_example) = txt "{{EMAIL}}{{CREDIT_CARD}}" /\
  mask_text None (mask_text None idempotence_example) <> mask_text None idempotence_example.
Proof. vm_compute. split; [reflexivity | split; [reflexivity | discriminate]]. Qed.

(** Claim C2 (amended): [mask_text] is not idempotent in general, but no rule
    matches a placeholder: every placeholder token, and every two
    placeholder tokens written next to each other, is left unchanged by
    [mask_text], for the default rule set and for every beta surname set
    that does not contain a placeholder's lower-cased word. *)
Theorem placeholders_fixed_by_mask_text : forall beta,
  beta_avoids beta placeholder_words ->
  forall p, In p (placeholders ++ placeholder_pairs) -> mask_text beta p = p.
Proof.
  intros beta Hb p Hp.
  apply (mask_text_concrete beta p p placeholder_words); [| | | exact Hb]; revert p Hp.
  - apply forallb_text_fixed. vm_compute. reflexivity.
  - apply (forallb_text_fixed (apply (personal_data_rule (fun _ => false)))).
    vm_compute. reflexivity.
  - apply (proj1 (forallb_forall
      (fun p => forallb (fun x => existsb (text_eqb x) placeholder_words)
                        (surname_candidates p)) _)).
    vm_compute. reflexivity.
Qed.

Lemma placeholders_fixed_by_mask_text_witness :
  beta_avoids (Some (fun x => text_eqb x (txt "kowalski"))) placeholder_words /\
  mask_text (Some (fun x => text_eqb x (txt "kowalski"))) (txt "{{IP}}{{PORT}}")
  = txt "{{IP}}{{PORT}}".
Proof.
  assert (Hb : beta_avoids (Some (fun x => text_eqb x (txt "kowalski"))) placeholder_words).
  { intros x Hx. simpl in Hx.
    repeat (destruct Hx as [<- | Hx]; [reflexivity |]). destruct Hx. }
  split; [exact Hb |].
  apply (placeholders_fixed_by_mask_text _ Hb).
  apply existsb_text_in. vm_compute. reflexivity.
Defined.

(** ** Claim C3 *)

(** Claim C3 (counterexample): [_mask_text] has no fault isolation.  With
    a rule that raises placed before the default rules, the loop stops with
    the exception, while skipping the failing rule, as the claim states,
    would have masked the email. *)
Lemma rule_failure_aborts_pipeline :
  mask_text_exc (raising_rule :: map lift_rule (all_masker_rules None)) (txt "user@example.com")
  = Raised "RuntimeError" /\
  mask_text_isolated (raising_rule :: map lift_rule (all_masker_rules None)) (txt "user@example.com")
  = Ok (txt "{{EMAIL}}").
Proof. vm_compute. split; reflexivity. Qed.

(** Claim C3 (amended): [_mask_text] applies the rules in order without
    catching anything.  When no rule raises it returns the ordinary masked
    text; it raises [e] exactly when some rule, applied to the output of the
    rules before it, raises [e], whatever rules come after; and whenever it
    returns normally the isolating loop of the claim returns the same text. *)
Theorem mask_text_no_fault_isolation :
  (forall rs t, mask_text_exc (map lift_rule rs) t = Ok (mask_text_with rs t)) /\
  (forall rs t e,
     mask_text_exc rs t = Raised e <->
     exists pre r post t', rs = pre ++ r :: post /\ mask_text_exc pre t = Ok t' /\
                           r t' = Raised e) /\
  (forall rs t t', mask_text_exc rs t = Ok t' -> mask_text_isolated rs t = Ok t').
Proof.
  split; [exact mask_text_exc_lift|]. split.
  - intros rs t e. split.
    + revert t. induction rs as [|r rs IH]; intros t H; [discriminate H|].
      rewrite mask_text_exc_cons in H. destruct (r t) as [t1|e1] eqn:Er; cbn [bind_exc] in H.
      * destruct (IH t1 H) as [pre [r0 [post [t' [E1 [E2 E3]]]]]].
        exists (r :: pre), r0, post, t'. split; [rewrite E1; reflexivity|]. split; [|exact E3].
        rewrite mask_text_exc_cons, Er. exact E2.
      * exists [], r, rs, t. split; [reflexivity|]. split; [reflexivity|]. rewrite Er. exact H.
    + intros [pre [r [post [t' [-> [E1 E2]]]]]].
      rewrite mask_text_exc_app, E1. cbn [bind_exc]. rewrite mask_text_exc_cons, E2. reflexivity.
  - induction rs as [|r rs IH]; intros t t' H; [exact H|].
    rewrite mask_text_exc_cons in H. cbn [mask_text_isolated].
    destruct (r t) as [t1|e1]; cbn [bind_exc] in H; [apply IH; exact H | discriminate H].
Qed.

Lemma mask_text_no_fault_isolation_witness :
  mask_text_exc (map lift_rule [email_rule] ++ raising_rule :: map lift_rule [url_rule])
    (txt "a@b.com") = Raised "RuntimeError".
Proof.
  destruct mask_text_no_fault_isolation as [_ [H _]].
  apply (proj2 (H _ _ _)).
  exists (map lift_rule [email_rule]), raising_rule, (map lift_rule [url_rule]), (txt "{{EMAIL}}").
  split; [reflexivity|]. split; [vm_compute; reflexivity | reflexivity].
Defined.

(** ** Claim C4 *)

(** Claim C4 (divergence): when the PESEL checksum fails, [PeselRule.apply]
    returns the captured digits rather than the whole match, so the
    markdown markers around the number are deleted; [PeselTaggedRule] keeps
    its whole match in the same situation. *)
Theorem pesel_rule_drops_markers_on_invalid :
  is_valid_pesel (txt "12345678901") = false /\
  apply pesel_rule (txt "**12345678901**") = txt "12345678901" /\
  apply pesel_tagged_rule (txt "PESEL: 12345678901") = txt "PESEL: 12345678901".
Proof. vm_compute. repeat split. Qed.

(** ** Claim C5 *)

(** Claim C5: after stripping spaces and dashes, [is_valid_credit_card]
    accepts exactly the digit strings of length 13 to 19 whose Luhn sum is
    divisible by 10; [mask_text] replaces [4111 1111 1111 1111] by
    [{{CREDIT_CARD}}] and returns [4111 1111 1111 1112] unchanged (for every
    beta surname set that does not contain [credit_card]). *)
Theorem credit_card_luhn_and_masking :
  (forall number,
     let cleaned := strip_chars (fun c => (c =? ch " ") || (c =? ch "-")) number in
     is_valid_credit_card number = true <->
     str_isdigit cleaned = true /\ (13 <= List.length cleaned <= 19)%nat /\
     luhn_spec_sum cleaned mod 10 = 0) /\
  (forall beta, beta_avoids beta [txt "credit_card"] ->
     mask_text beta (txt "4111 1111 1111 1111") = txt "{{CREDIT_CARD}}" /\
     mask_text beta (txt "4111 1111 1111 1112") = txt "4111 1111 1111 1112").
Proof.
  split; [exact credit_iff|].
  intros beta Hb. split.
  - apply (mask_text_concrete beta _ _ [txt "credit_card"]);
      [vm_compute; reflexivity | vm_compute; reflexivity | vm_compute; reflexivity | exact Hb].
  - apply (mask_text_concrete beta _ _ [txt "credit_card"]);
      [vm_compute; reflexivity | vm_compute; reflexivity | vm_compute; reflexivity | exact Hb].
Qed.

Lemma credit_card_luhn_and_masking_witness :
  (is_valid_credit_card (txt "4111-1111-1111-1111") = true <->
   str_isdigit (txt "4111111111111111") = true /\ (13 <= 16 <= 19)%nat /\
   luhn_spec_sum (txt "4111111111111111") mod 10 = 0) /\
  mask_text None (txt "4111 1111 1111 1111") = txt "{{CREDIT_CARD}}".
Proof.
  destruct credit_card_luhn_and_masking as [H1 H2]. split.
  - exact (H1 (txt "4111-1111-1111-1111")).
  - exact (proj1 (H2 None I)).
Defined.

(** ** Claim C6 *)

(** Claim C6: on 11-digit strings [is_valid_pesel] is the weighted mod-10
    check of the specification; [mask_text] replaces [44051401359] by
    [{{PESEL}}] (for every beta surname set without [pesel]); and every
    11-digit string with a wrong checksum is returned unchanged, under every
    beta configuration. *)
Theorem pesel_check_and_masking :
  (forall s, List.length s = 11%nat -> forallb is_digit s = true ->
     (is_valid_pesel s = true <-> pesel_spec_ok s)) /\
  (forall beta, beta_avoids beta [txt "pesel"] ->
     mask_text beta (txt "44051401359") = txt "{{PESEL}}") /\
  (forall beta s, List.length s = 11%nat -> forallb is_digit s = true ->
     is_valid_pesel s = false -> mask_text beta s = s).
Proof.
  split; [exact pesel_iff|]. split.
  - intros beta Hb. apply (mask_text_concrete beta _ _ [txt "pesel"]);
      [vm_compute; reflexivity | vm_compute; reflexivity | vm_compute; reflexivity | exact Hb].
  - intros beta s Hl Hd. exact (mask_text_invalid_pesel beta s Hd Hl).
Qed.

Lemma pesel_check_and_masking_witness :
  (is_valid_pesel (txt "44051401359") = true <-> pesel_spec_ok (txt "44051401359")) /\
  mask_text None (txt "44051401359") = txt "{{PESEL}}" /\
  mask_text None (txt "12345678901") = txt "12345678901".
Proof.
  destruct pesel_check_and_masking as [H1 [H2 H3]]. split; [|split].
  - apply H1; reflexivity.
  - exact (H2 None I).
  - apply H3; vm_compute; reflexivity.
Defined.

(** ** Claim C7 *)

(** Claim C7: in the default rule list the email rule (index 13) comes
    before the URL rule (14) and the IP rule (15); [mask_text] turns
    [user@example.com] into [{{EMAIL}}] and [192.168.0.1:8080] into
    [{{IP}}:{{PORT}}] (for every beta surname set without [email] and
    [port]). *)
Theorem email_before_url_and_ip : forall beta,
  nth_error (all_masker_rules beta) 13 = Some email_rule /\
  nth_error (all_masker_rules beta) 14 = Some url_rule /\
  nth_error (all_masker_rules beta) 15 = Some ip_rule /\
  (beta_avoids beta [txt "email"; txt "port"] ->
     mask_text beta (txt "user@example.com") = txt "{{EMAIL}}" /\
     mask_text beta (txt "192.168.0.1:8080") = txt "{{IP}}:{{PORT}}").
Proof.
  intros beta. split; [destruct beta; reflexivity|].
  split; [destruct beta; reflexivity|]. split; [destruct beta; reflexivity|].
  intros Hb. split.
  - apply (mask_text_concrete beta _ _ [txt "email"; txt "port"]);
      [vm_compute; reflexivity | vm_compute; reflexivity | vm_compute; reflexivity | exact Hb].
  - apply (mask_text_concrete beta _ _ [txt "email"; txt "port"]);
      [vm_compute; reflexivity | vm_compute; reflexivity | vm_compute; reflexivity | exact Hb].
Qed.

Lemma email_before_url_and_ip_witness :
  mask_text None (txt "user@example.com") = txt "{{EMAIL}}" /\
  mask_text None (txt "192.168.0.1:8080") = txt "{{IP}}:{{PORT}}".
Proof.
  destruct (email_before_url_and_ip None) as [_ [_ [_ H]]]. exact (H I).
Defined.

(** ** Claim C8 *)

(** Counterexample to claim C8: a tuple and an [OrderedDict] are sequences
    and string-keyed maps, but [mask_payload] dispatches on
    [type(payload) is list] and [type(payload) is dict] and returns them
    unchanged, email address included. *)
Lemma mask_payload_skips_tuple_and_ordered_dict :
  mask_text None (txt "a@b.com") = txt "{{EMAIL}}" /\
  mask_payload (mask_text None) (PSeq PyTuple [PStr (txt "a@b.com")])
  = PSeq PyTuple [PStr (txt "a@b.com")] /\
  mask_payload (mask_text None) (PMap PyOrderedDict [(KStr (txt "k"), PStr (txt "a@b.com"))])
  = PMap PyOrderedDict [(KStr (txt "k"), PStr (txt "a@b.com"))].
Proof. split; [vm_compute; reflexivity | split; reflexivity]. Qed.

(** Claim C8 (amended): [mask_payload] masks a value whose type is exactly
    [str]; for exactly [dict] it builds a new dict whose entries are the
    masked key and masked value of input entries, with every masked input
    key present and no key twice (colliding masked keys share one entry);
    for exactly [list] it maps itself over the elements, keeping order and
    length; every other value, tuples and [OrderedDict] included, is
    returned unchanged. *)
Theorem mask_payload_by_exact_type : forall (f : text -> text),
  (forall s, mask_payload f (PStr s) = PStr (f s)) /\
  (forall es, exists es', mask_payload f (PMap PyDict es) = PMap PyDict es' /\
     (forall k v, In (k, v) es' ->
        exists k0 v0, In (k0, v0) es /\ k = mask_key f k0 /\ v = mask_payload f v0) /\
     (forall k0 v0, In (k0, v0) es -> In (mask_key f k0) (map fst es')) /\
     NoDup (map fst es')) /\
  (forall xs, mask_payload f (PSeq PyList xs) = PSeq PyList (map (mask_payload f) xs)) /\
  (forall xs, mask_payload f (PSeq PyTuple xs) = PSeq PyTuple xs) /\
  (forall es, mask_payload f (PMap PyOrderedDict es) = PMap PyOrderedDict es) /\
  (forall t, mask_payload f (POther t) = POther t).
Proof.
  intros f. split; [reflexivity|]. split.
  - intros es. exists (fold_left (dict_step f) es []). split; [reflexivity|]. split; [|split].
    + intros k v H. apply fold_dict_in in H as [[] | H]. exact H.
    + intros k0 v0 H. apply fold_dict_keys. right. exists (k0, v0). split; [exact H | reflexivity].
    + apply fold_dict_nodup. constructor.
  - repeat split.
Qed.

Lemma mask_payload_by_exact_type_witness :
  mask_payload (mask_text None) (PSeq PyList [PStr (txt "a@b.com"); POther 7])
  = PSeq PyList [PStr (txt "{{EMAIL}}"); POther 7].
Proof.
  destruct (mask_payload_by_exact_type (mask_text None)) as [_ [_ [Hl _]]].
  rewrite Hl. vm_compute. reflexivity.
Defined.

(** ** Claim C9 *)

(** Claim C9: [FastMasker(rules=[])] gets the default rule list, as
    [FastMasker()] does, so it masks every string as [mask_text] does and
    masks [user@example.com] (for every beta surname set without
    [email]). *)
Theorem empty_rule_list_uses_defaults : forall beta,
  fast_masker_init beta (Some []) = fast_masker_init beta None /\
  (forall x, fm_mask_text (fast_masker_init beta (Some [])) x = mask_text beta x) /\
  (beta_avoids beta [txt "email"] ->
     fm_mask_text (fast_masker_init beta (Some [])) (txt "user@example.com") = txt "{{EMAIL}}" /\
     txt "{{EMAIL}}" <> txt "user@example.com").
Proof.
  intros beta. split; [reflexivity|]. split; [reflexivity|].
  intros Hb. split; [|discriminate].
  change (mask_text beta (txt "user@example.com") = txt "{{EMAIL}}").
  apply (mask_text_concrete beta _ _ [txt "email"]);
    [vm_compute; reflexivity | vm_compute; reflexivity | vm_compute; reflexivity | exact Hb].
Qed.

Lemma empty_rule_list_uses_defaults_witness :
  fm_mask_text (fast_masker_init None (Some [])) (txt "user@example.com") = txt "{{EMAIL}}".
Proof.
  destruct (empty_rule_list_uses_defaults None) as [_ [_ H]]. exact (proj1 (H I)).
Defined.

(** ** Claim C10 *)

(** Claim C10: when two distinct keys of a dict, at positions [i < j], mask
    to the same key and no later key masks to it, [mask_payload] returns a
    dict with fewer entries, whose entry for the shared masked key holds
    the masked value of the later key. *)
Theorem mask_dict_collision : forall (f : text -> text) es i j ki vi kj vj,
  NoDup (map fst es) ->
  (i < j)%nat -> nth_error es i = Some (ki, vi) -> nth_error es j = Some (kj, vj) ->
  mask_key f ki = mask_key f kj ->
  (forall l k v, (j < l)%nat -> nth_error es l = Some (k, v) -> mask_key f k <> mask_key f kj) ->
  exists es', mask_payload f (PMap PyDict es) = PMap PyDict es' /\
              (List.length es' < List.length es)%nat /\
              dict_get es' (mask_key f kj) = Some (mask_payload f vj).
Proof.
  intros f es i j ki vi kj vj _ Hij Hi Hj Hcol Hlast.
  exists (fold_left (dict_step f) es []). split; [reflexivity|].
  destruct (nth_error_split es j Hj) as [es1 [es2 [Hes Hlen]]].
  assert (Hin1 : In (ki, vi) es1).
  { apply nth_error_In with i. rewrite Hes, nth_error_app1 in Hi by lia. exact Hi. }
  rewrite Hes, fold_left_app. simpl.
  assert (Hk : In (mask_key f kj) (map fst (fold_left (dict_step f) es1 []))).
  { apply fold_dict_keys. right. exists (ki, vi). split; [exact Hin1 | symmetry; exact Hcol]. }
  split.
  - pose proof (fold_dict_length f es1 []) as L1.
    pose proof (fold_dict_length f es2 (dict_step f (fold_left (dict_step f) es1 []) (kj, vj)))
      as L2.
    change (List.length (dict_step f (fold_left (dict_step f) es1 []) (kj, vj)))
      with (List.length (dict_set (fold_left (dict_step f) es1 []) (mask_key f kj)
                                  (mask_payload f vj))) in L2.
    rewrite dict_set_length_in in L2 by exact Hk.
    rewrite length_app. simpl. simpl in L1. lia.
  - rewrite fold_dict_get_other.
    + unfold dict_step. simpl. apply dict_get_set_eq.
    + intros [k v] He. apply In_nth_error in He as [l Hl].
      apply (Hlast (S j + l)%nat k v); [lia|].
      rewrite Hes, nth_error_app2 by lia.
      replace (S j + l - List.length es1)%nat with (S l) by lia. exact Hl.
Qed.

Lemma mask_dict_collision_witness :
  exists es', mask_payload (mask_text None) (PMap PyDict collision_example) = PMap PyDict es' /\
              (List.length es' < List.length collision_example)%nat /\
              dict_get es' (mask_key (mask_text None) (KStr (txt "c@d.com")))
              = Some (mask_payload (mask_text None) (PStr (txt "second"))).
Proof.
  apply (mask_dict_collision (mask_text None) collision_example 0 1
           (KStr (txt "a@b.com")) (PStr (txt "first")) (KStr (txt "c@d.com")) (PStr (txt "second"))).
  - vm_compute. constructor; [intros [H | []]; discriminate | constructor; [intros [] | constructor]].
  - lia.
  - reflexivity.
  - reflexivity.
  - vm_compute. reflexivity.
  - intros l k v Hl H. destruct l as [|[|l]]; [lia | lia |].
    unfold collision_example in H. simpl in H. destruct l; discriminate H.
Defined.

(* ================================================================== *)
(** * Further properties of the code *)

(** ** Regular expressions on one-character classes *)

Lemma nth_error_skipn_hd : forall (s : text) i,
  nth_error s i = match skipn i s with [] => None | c :: _ => Some c end.
Proof. induction s as [|c s IH]; intros [|i]; simpl; try reflexivity. apply IH. Qed.

Lemma skipn_S_cons : forall (s : text) i c l, skipn i s = c :: l -> skipn (S i) s = l.
Proof.
  induction s as [|c0 s IH]; intros [|i] c l H; simpl in H |- *; try discriminate.
  - injection H as _ ->. reflexivity.
  - apply (IH i c l H).
Qed.

Lemma skipn_nil_le : forall (s : text) i, skipn i s = [] -> (List.length s <= i)%nat.
Proof. intros s i H. pose proof (length_skipn i s) as E. rewrite H in E. simpl in E. lia. Qed.

Lemma skipn_cons_lt : forall (s : text) i c l, skipn i s = c :: l ->
  (i < List.length s)%nat /\ List.length l = (List.length s - S i)%nat.
Proof.
  intros s i c l H. pose proof (length_skipn i s) as E. rewrite H in E. simpl in E. lia.
Qed.

Lemma forallb_ctest_false : forall p (l : text), forallb (ctest false p) l = forallb p l.
Proof.
  intros p l. induction l as [|c l IH]; cbn [forallb]; [reflexivity|].
  rewrite IH. unfold ctest. rewrite orb_false_r. reflexivity.
Qed.

Lemma existsb_ctest_false : forall p (l : text), existsb (ctest false p) l = existsb p l.
Proof.
  intros p l. induction l as [|c l IH]; cbn [existsb]; [reflexivity|].
  rewrite IH. unfold ctest. rewrite orb_false_r. reflexivity.
Qed.

Lemma mt_chr : forall ci s p k i g,
  mt ci s (Chr p) k i g =
  match at_ s i with Some c => if ctest ci p c then k (S i) g else None | None => None end.
Proof. reflexivity. Qed.

Lemma mt_rep : forall ci s r mn mx gr k i g,
  mt ci s (Rep r mn mx gr) k i g = rep_loop (mt ci s r) k gr (S (mn + List.length s)) mn mx i g.
Proof. reflexivity. Qed.

(** [r{n}] for a one-character class [r]. *)
Lemma rep_chr_exact : forall ci s p k gr n fuel i g, (n < fuel)%nat ->
  rep_loop (mt ci s (Chr p)) k gr fuel n (Some n) i g =
  if forallb (ctest ci p) (firstn n (skipn i s)) && (n <=? List.length (skipn i s))%nat
  then k (i + n)%nat g else None.
Proof.
  intros ci s p k gr n. induction n as [|n IH]; intros fuel i g Hf;
    (destruct fuel as [|fuel]; [lia|]).
  - cbn [rep_loop]. rewrite Nat.add_0_r. reflexivity.
  - cbn [rep_loop dec_opt Nat.pred]. rewrite mt_chr. unfold at_. rewrite nth_error_skipn_hd.
    destruct (skipn i s) as [|c l] eqn:E; [reflexivity|].
    rewrite (IH fuel (S i) g) by lia. rewrite (skipn_S_cons s i c l E).
    cbn [firstn forallb List.length Nat.leb]. rewrite <- plus_n_Sm.
    destruct (ctest ci p c); reflexivity.
Qed.

Lemma fullmatch_rep_exact : forall s p n,
  fullmatch false s (Rep (Chr p) n (Some n) true) = (List.length s =? n)%nat && forallb p s.
Proof.
  intros s p n. unfold fullmatch. rewrite mt_rep.
  rewrite rep_chr_exact by lia. cbn [skipn]. rewrite Nat.add_0_l.
  destruct (Nat.eqb_spec (List.length s) n) as [E | E].
  - rewrite firstn_all2 by lia. rewrite E, Nat.leb_refl, Nat.eqb_refl, andb_true_r.
    rewrite forallb_ctest_false. destruct (forallb p s); reflexivity.
  - destruct (n <=? List.length s)%nat; rewrite ?andb_false_r; [|reflexivity].
    destruct (Nat.eqb_spec n (List.length s)); [lia|].
    destruct (forallb _ _); reflexivity.
Qed.

Lemma fullmatch_digits_iff : forall n t,
  fullmatch_digits n t = (List.length t =? n)%nat && forallb is_digit t.
Proof. intros n t. apply fullmatch_rep_exact. Qed.


Lemma match_gr_some : forall (gr : bool) (o : option (nat * caps)),
  match (if gr then match o with Some x => Some x | None => None end else o) with
  | Some _ => true | None => false end = match o with Some _ => true | None => false end.
Proof. intros [|] [?|]; reflexivity. Qed.

Lemma rep_chr_full : forall ci s p gr fuel mn mx i g,
  (List.length s - i < fuel)%nat -> (i <= List.length s)%nat ->
  match mx with Some m => (mn <= m)%nat | None => True end ->
  match rep_loop (mt ci s (Chr p))
          (fun j g => if (j =? List.length s)%nat then Some (j, g) else None)
          gr fuel mn mx i g with Some _ => true | None => false end
  = (mn <=? List.length s - i)%nat && forallb (ctest ci p) (skipn i s) &&
    rep_bound (List.length s - i) mx.
Proof.
  intros ci s p gr. induction fuel as [|fuel IH]; intros mn mx i g Hf Hi Hm; [lia|].
  cbn [rep_loop]. destruct mn as [|mn].
  - destruct mx as [[|m]|].
    + cbn [rep_bound]. destruct (Nat.eqb_spec i (List.length s)) as [E|E].
      * subst i. rewrite skipn_all, Nat.sub_diag. reflexivity.
      * replace (List.length s - i <=? 0)%nat with false
          by (symmetry; apply Nat.leb_gt; lia).
        rewrite andb_false_r. reflexivity.
    + rewrite mt_chr. unfold at_. rewrite nth_error_skipn_hd.
      destruct (skipn i s) as [|c l] eqn:E.
      * apply skipn_nil_le in E. assert (i = List.length s) by lia. subst i.
        rewrite Nat.eqb_refl, Nat.sub_diag. destruct gr; reflexivity.
      * destruct (skipn_cons_lt s i c l E) as [Hlt Hl].
        replace (i =? List.length s)%nat with false by (symmetry; apply Nat.eqb_neq; lia).
        assert (Hc : (i <? S i)%nat = true) by (apply Nat.ltb_lt; lia).
        cbn [forallb]. destruct (ctest ci p c) eqn:Ec.
        -- rewrite Hc.
           assert (IH' := IH 0%nat (dec_opt (Some (S m))) (S i) g ltac:(lia) ltac:(lia) ltac:(simpl; lia)).
           rewrite (skipn_S_cons s i c l E) in IH'.
           replace (List.length s - i)%nat with (S (List.length s - S i)) by lia.
           rewrite match_gr_some, IH'. cbn [dec_opt Nat.pred rep_bound Nat.leb andb]. reflexivity.
        -- destruct gr; reflexivity.
    + rewrite mt_chr. unfold at_. rewrite nth_error_skipn_hd.
      destruct (skipn i s) as [|c l] eqn:E.
      * apply skipn_nil_le in E. assert (i = List.length s) by lia. subst i.
        rewrite Nat.eqb_refl. destruct gr; reflexivity.
      * destruct (skipn_cons_lt s i c l E) as [Hlt Hl].
        replace (i =? List.length s)%nat with false by (symmetry; apply Nat.eqb_neq; lia).
        assert (Hc : (i <? S i)%nat = true) by (apply Nat.ltb_lt; lia).
        cbn [forallb]. destruct (ctest ci p c) eqn:Ec.
        -- rewrite Hc.
           assert (IH' := IH 0%nat None (S i) g ltac:(lia) ltac:(lia) I).
           rewrite (skipn_S_cons s i c l E) in IH'.
           change (dec_opt None) with (@None nat). rewrite match_gr_some, IH'. cbn [dec_opt Nat.pred rep_bound Nat.leb andb]. reflexivity.
        -- destruct gr; reflexivity.
  - rewrite mt_chr. unfold at_. rewrite nth_error_skipn_hd.
    destruct (skipn i s) as [|c l] eqn:E.
    + apply skipn_nil_le in E. replace (List.length s - i)%nat with 0%nat by lia. reflexivity.
    + destruct (skipn_cons_lt s i c l E) as [Hlt Hl]. cbn [forallb].
      destruct (ctest ci p c) eqn:Ec; [| rewrite andb_false_r; reflexivity].
      assert (Hm' : match dec_opt mx with Some m => (mn <= m)%nat | None => True end)
        by (destruct mx as [m|]; simpl; [lia | exact I]).
      rewrite (IH mn (dec_opt mx) (S i) g ltac:(lia) ltac:(lia) Hm').
      rewrite (skipn_S_cons s i c l E).
      replace (List.length s - i)%nat with (S (List.length s - S i)) by lia.
      destruct mx as [[|m]|]; [simpl in Hm; lia | |]; reflexivity.
Qed.

Lemma fullmatch_rep_chr : forall s p mn mx gr,
  match mx with Some m => (mn <= m)%nat | None => True end ->
  fullmatch false s (Rep (Chr p) mn mx gr) =
  (mn <=? List.length s)%nat && forallb p s && rep_bound (List.length s) mx.
Proof.
  intros s p mn mx gr Hm. unfold fullmatch. rewrite mt_rep.
  rewrite rep_chr_full by (try lia; exact Hm).
  rewrite Nat.sub_0_r, forallb_ctest_false. reflexivity.
Qed.

Lemma search_go_chr : forall ci s p n i,
  match search_go ci s (Chr p) n i false with Some _ => true | None => false end =
  existsb (ctest ci p) (firstn (S n) (skipn i s)).
Proof.
  intros ci s p. induction n as [|n IH]; intros i; cbn [search_go]; unfold match_at;
    rewrite mt_chr; unfold at_; rewrite nth_error_skipn_hd;
    destruct (skipn i s) as [|c l] eqn:E; try reflexivity.
  - cbn [firstn existsb]. rewrite orb_false_r. destruct (ctest ci p c); reflexivity.
  - rewrite IH. apply skipn_nil_le in E. rewrite skipn_all2 by lia. reflexivity.
  - specialize (IH (S i)). rewrite (skipn_S_cons s i c l E) in IH.
    change (firstn (S (S n)) (c :: l)) with (c :: firstn (S n) l). cbn [existsb].
    destruct (ctest ci p c); [reflexivity|]. cbn [orb]. rewrite <- IH. reflexivity.
Qed.

Lemma search_any_chr : forall s p, search_any false s (Chr p) = existsb p s.
Proof.
  intros s p. unfold search_any, search. rewrite search_go_chr, Nat.sub_0_r.
  cbn [skipn]. rewrite firstn_all2 by lia. apply existsb_ctest_false.
Qed.


(** ** Validators *)

Lemma digit_val_range : forall c, is_digit c = true -> 0 <= digit_val c <= 9.
Proof.
  intros c H. unfold is_digit, rng in H. apply andb_true_iff in H as [H1 H2].
  apply Z.leb_le in H1. apply Z.leb_le in H2. unfold digit_val. lia.
Qed.

Lemma nth_digits_of_range : forall l k, forallb is_digit l = true ->
  0 <= nth k (digits_of l) 0 <= 9.
Proof.
  intros l k H.
  assert (E : nth k (digits_of l) 0 = digit_val (nth k l 48))
    by (unfold digits_of; apply (map_nth digit_val l 48 k)).
  rewrite E.
  apply digit_val_range.
  destruct (nth_in_or_default k l 48) as [Hin | ->]; [|reflexivity].
  rewrite forallb_forall in H. apply H. exact Hin.
Qed.

Lemma fullmatch_alt : forall s r1 r2,
  fullmatch false s (Alt r1 r2) = fullmatch false s r1 || fullmatch false s r2.
Proof.
  intros s r1 r2. unfold fullmatch. change (mt false s (Alt r1 r2)) with
    (fun k i g => match mt false s r1 k i g with Some x => Some x | None => mt false s r2 k i g end).
  cbv beta. destruct (mt false s r1 _ 0%nat []); reflexivity.
Qed.

Lemma strip_space_digits : forall l, forallb is_digit l = true -> strip_chars is_space l = l.
Proof.
  induction l as [|c l IH]; intros H; [reflexivity|].
  simpl in H. apply andb_true_iff in H as [Hc Hl]. unfold strip_chars. simpl.
  replace (is_space c) with false.
  - simpl. f_equal. apply IH. exact Hl.
  - unfold is_digit, rng in Hc. apply andb_true_iff in Hc as [H1 H2].
    apply Z.leb_le in H1. apply Z.leb_le in H2. symmetry.
    unfold is_space, rng. repeat rewrite orb_false_iff. repeat split;
      try (apply andb_false_iff; first [left; apply Z.leb_gt; lia | right; apply Z.leb_gt; lia]);
      apply Z.eqb_neq; lia.
Qed.

(** Extra X2: [is_valid_nip] accepts exactly the texts that are ten digits
    once hyphens and whitespace are removed and whose weighted sum (weights
    6 5 7 2 3 4 5 6 7) modulo 11 equals the last digit; in particular a
    number whose weighted sum leaves remainder 10 is never a valid NIP. *)
Theorem is_valid_nip_iff :
  (forall raw_nip,
     let digits := strip_chars (fun c => (c =? ch "-") || is_space c) raw_nip in
     is_valid_nip raw_nip = true <->
     List.length digits = 10%nat /\ forallb is_digit digits = true /\
     wsum [6; 5; 7; 2; 3; 4; 5; 6; 7] (firstn 9 (digits_of digits)) mod 11
     = nth 9 (digits_of digits) 0) /\
  (forall raw_nip,
     wsum [6; 5; 7; 2; 3; 4; 5; 6; 7]
       (firstn 9 (digits_of (strip_chars (fun c => (c =? ch "-") || is_space c) raw_nip)))
       mod 11 = 10 ->
     is_valid_nip raw_nip = false).
Proof.
  assert (H : forall raw_nip,
     let digits := strip_chars (fun c => (c =? ch "-") || is_space c) raw_nip in
     is_valid_nip raw_nip = true <->
     List.length digits = 10%nat /\ forallb is_digit digits = true /\
     wsum [6; 5; 7; 2; 3; 4; 5; 6; 7] (firstn 9 (digits_of digits)) mod 11
     = nth 9 (digits_of digits) 0).
  { intros raw digits. unfold is_valid_nip. fold digits. rewrite fullmatch_digits_iff.
    destruct (Nat.eqb_spec (List.length digits) 10) as [E|E]; cbn [andb negb].
    - destruct (forallb is_digit digits); cbn [negb].
      + rewrite Z.eqb_eq. tauto.
      + split; [discriminate | intros [_ [? _]]; discriminate].
    - split; [discriminate | intros [? _]; contradiction]. }
  split; [exact H|].
  intros raw H10. destruct (is_valid_nip raw) eqn:E; [|reflexivity].
  apply H in E as [_ [Hd Heq]]. rewrite H10 in Heq.
  pose proof (nth_digits_of_range _ 9 Hd). lia.
Qed.

(** Extra X3: [is_valid_krs] accepts exactly the texts that are ten digits
    once hyphens and whitespace are removed and whose weighted sum (weights
    2 3 4 5 6 7 8 9 2) modulo 11 equals the last digit; the explicit
    [control_digit == 10] test never changes the result. *)
Theorem is_valid_krs_iff : forall raw_krs,
  let digits := strip_chars (fun c => (c =? ch "-") || is_space c) raw_krs in
  is_valid_krs raw_krs = true <->
  List.length digits = 10%nat /\ forallb is_digit digits = true /\
  wsum [2; 3; 4; 5; 6; 7; 8; 9; 2] (firstn 9 (digits_of digits)) mod 11
  = nth 9 (digits_of digits) 0.
Proof.
  intros raw digits. unfold is_valid_krs. fold digits. rewrite fullmatch_digits_iff.
  destruct (Nat.eqb_spec (List.length digits) 10) as [E|E]; cbn [andb negb].
  - destruct (forallb is_digit digits) eqn:Hd; cbn [negb].
    + destruct (Z.eqb_spec (wsum [2; 3; 4; 5; 6; 7; 8; 9; 2] (firstn 9 (digits_of digits)) mod 11) 10)
        as [T|T].
      * split; [discriminate|]. intros [_ [_ Heq]].
        pose proof (nth_digits_of_range _ 9 Hd). lia.
      * rewrite Z.eqb_eq. tauto.
    + split; [discriminate | intros [_ [? _]]; discriminate].
  - split; [discriminate | intros [? _]; contradiction].
Qed.


(** Extra X4: a text accepted by [is_valid_regon] is, after removing
    whitespace, 9 or 14 digits, and a valid 14-digit REGON starts with a
    valid 9-digit REGON. *)
Theorem is_valid_regon_shape : forall raw_regon,
  let digits := strip_chars is_space raw_regon in
  is_valid_regon raw_regon = true ->
  forallb is_digit digits = true /\
  (List.length digits = 9%nat \/ List.length digits = 14%nat) /\
  (List.length digits = 14%nat -> is_valid_regon (firstn 9 digits) = true).
Proof.
  intros raw digits H. unfold is_valid_regon in H. fold digits in H.
  rewrite fullmatch_alt in H. unfold dn, rpt, d in H.
  rewrite !fullmatch_rep_exact in H.
  destruct (forallb is_digit digits) eqn:Hd;
    [| rewrite !andb_false_r in H; discriminate H].
  rewrite !andb_true_r in H.
  assert (Hlen : List.length digits = 9%nat \/ List.length digits = 14%nat).
  { destruct (Nat.eqb_spec (List.length digits) 9) as [E9|E9]; [left; exact E9|].
    destruct (Nat.eqb_spec (List.length digits) 14) as [E14|E14]; [right; exact E14|].
    cbn [orb negb] in H. discriminate H. }
  split; [reflexivity | split; [exact Hlen|]].
  intros E14. rewrite E14 in H. cbn [Nat.eqb orb negb] in H.
    destruct (regon_checksum (firstn 8 digits) [8; 9; 2; 3; 4; 5; 6; 7] =? nth 8 (digits_of digits) 0)
      eqn:C; cbn [negb] in H; [|discriminate H].
    assert (Hd9 : forallb is_digit (firstn 9 digits) = true).
    { rewrite forallb_forall in Hd |- *. intros x Hx. apply Hd. rewrite <- (firstn_skipn 9 digits). apply in_or_app. left. exact Hx. }
    assert (Hl9 : List.length (firstn 9 digits) = 9%nat) by (rewrite length_firstn; lia).
    unfold is_valid_regon. rewrite (strip_space_digits _ Hd9), fullmatch_alt.
    unfold dn, rpt, d. rewrite !fullmatch_rep_exact, Hl9, Hd9. cbn [Nat.eqb andb orb negb].
    rewrite firstn_firstn. replace (Nat.min 8 9) with 8%nat by reflexivity.
    rewrite <- C. f_equal. unfold digits_of. rewrite <- firstn_map.
    rewrite nth_firstn. reflexivity.
Qed.


(** Extra X5: an ASCII text accepted by [is_valid_vin] has 17 characters,
    its upper-cased form uses only VIN characters (no I, O or Q), and its
    ninth character is a digit or X.  On ASCII text [str.upper] maps each
    character to one character, as [str_upper] does. *)
Theorem is_valid_vin_shape : forall vin,
  Forall (fun c => 0 <= c < 128) vin ->
  is_valid_vin vin = true ->
  List.length vin = 17%nat /\
  forallb vin_class (str_upper vin) = true /\
  (forall c, In c (str_upper vin) -> c <> ch "I" /\ c <> ch "O" /\ c <> ch "Q") /\
  exists c, nth_error (str_upper vin) 8 = Some c /\ (is_digit c = true \/ c = ch "X").
Proof.
  intros vin _ H. unfold is_valid_vin, rpt in H. rewrite fullmatch_rep_exact in H.
  unfold str_upper in H |- *. rewrite length_map in H.
  destruct (Nat.eqb_spec (List.length vin) 17) as [E|E]; [|discriminate H].
  destruct (forallb vin_class (map upper vin)) eqn:Hc; [|discriminate H].
  cbn [andb negb] in H.
  split; [exact E|]. split; [reflexivity|]. split.
  - intros c Hin. rewrite forallb_forall in Hc. specialize (Hc c Hin).
    repeat split; intros ->; discriminate Hc.
  - destruct (nth_error (map upper vin) 8) as [c|] eqn:En; [|discriminate H].
    exists c. split; [reflexivity|]. apply Z.eqb_eq in H. subst c.
    unfold vin_check_char.
    destruct (Z.eqb_spec (vin_total vin_translation (map upper vin) mod 11) 10) as [T|T];
      [right; reflexivity | left].
    pose proof (Z.mod_pos_bound (vin_total vin_translation (map upper vin)) 11 ltac:(lia)).
    unfold is_digit, rng. apply andb_true_iff. split; apply Z.leb_le; lia.
Qed.

Lemma ascii_case_table :
  forallb (fun c => (upper (lower c) =? upper c) && (upper (upper c) =? upper c))
          (map Z.of_nat (seq 0 128)) = true.
Proof. vm_compute. reflexivity. Qed.

Lemma ascii_case : forall c, 0 <= c < 128 -> upper (lower c) = upper c /\ upper (upper c) = upper c.
Proof.
  intros c Hc. pose proof ascii_case_table as T. rewrite forallb_forall in T.
  assert (Hin : In c (map Z.of_nat (seq 0 128))).
  { apply in_map_iff. exists (Z.to_nat c). split; [apply Z2Nat.id; lia|].
    apply in_seq. lia. }
  specialize (T c Hin). apply andb_true_iff in T as [T1 T2].
  apply Z.eqb_eq in T1, T2. split; assumption.
Qed.

(** Extra X6: on ASCII text [is_valid_vin] ignores case: the lower-cased
    and the upper-cased text get the same answer as the text itself. *)
Theorem is_valid_vin_ascii_case : forall vin,
  Forall (fun c => 0 <= c < 128) vin ->
  is_valid_vin (str_lower vin) = is_valid_vin vin /\ is_valid_vin (str_upper vin) = is_valid_vin vin.
Proof.
  intros vin H.
  assert (E1 : str_upper (str_lower vin) = str_upper vin).
  { unfold str_upper, str_lower. rewrite map_map. apply map_ext_in. intros c Hc.
    rewrite Forall_forall in H. apply ascii_case, H, Hc. }
  assert (E2 : str_upper (str_upper vin) = str_upper vin).
  { unfold str_upper. rewrite map_map. apply map_ext_in. intros c Hc.
    rewrite Forall_forall in H. apply ascii_case, H, Hc. }
  unfold is_valid_vin. rewrite E1, E2. split; reflexivity.
Qed.

(** Extra X7: [is_valid_ssl_serial] holds exactly for texts of 16 to 40
    characters that are all hexadecimal digits. *)
Theorem is_valid_ssl_serial_iff : forall serial,
  is_valid_ssl_serial serial =
  (16 <=? List.length serial)%nat && (List.length serial <=? 40)%nat && forallb hex serial.
Proof.
  intros serial. unfold is_valid_ssl_serial, rpt. rewrite fullmatch_rep_chr by lia.
  cbn [rep_bound]. destruct (16 <=? List.length serial)%nat, (forallb hex serial),
    (List.length serial <=? 40)%nat; reflexivity.
Qed.

(** Extra X8: [is_possible_transaction_ref] holds exactly for texts of 8
    to 64 characters that contain at least one digit. *)
Theorem is_possible_transaction_ref_iff : forall ref,
  is_possible_transaction_ref ref = true <->
  (8 <= List.length ref <= 64)%nat /\ exists c, In c ref /\ is_digit c = true.
Proof.
  intros ref. unfold is_possible_transaction_ref, d. rewrite search_any_chr.
  rewrite <- existsb_exists.
  destruct (Nat.leb_spec 8 (List.length ref)), (Nat.leb_spec (List.length ref) 64);
    cbn [andb negb]; split; try (intros [? _]; lia); try discriminate; try tauto.
Qed.

Lemma nat_ltb_negb_leb : forall a b, (a <? b)%nat = negb (b <=? a)%nat.
Proof. intros a b. rewrite Nat.leb_antisym, negb_involutive. reflexivity. Qed.

Lemma one_leb_length : forall (l : list Z),
  (1 <=? List.length l)%nat = negb (match l with [] => true | _ => false end).
Proof. intros [|x l]; reflexivity. Qed.

Lemma is_possible_jwt_bool : forall jwt,
  is_possible_jwt jwt =
  match split_on (ch ".") jwt with
  | [h; p; sg] =>
      (20 <=? List.length h)%nat && forallb b64url h &&
      (20 <=? List.length p)%nat && forallb b64url p &&
      negb (match sg with [] => true | _ => false end) && forallb b64url sg
  | _ => false
  end.
Proof.
  intros jwt. unfold is_possible_jwt, plus.
  destruct (split_on (ch ".") jwt) as [|h [|p [|sg [|x rest]]]]; try reflexivity.
  cbn [List.length Nat.eqb negb].
  rewrite !fullmatch_rep_chr by exact I. cbn [rep_bound].
  cbv beta iota zeta.
  change (0 <? 2)%nat with true; change (1 <? 2)%nat with true; change (2 <? 2)%nat with false.
  rewrite !nat_ltb_negb_leb, !one_leb_length.
  destruct (match h with [] => true | _ => false end) eqn:Eh.
  { destruct h; [|discriminate Eh]. reflexivity. }
  destruct (match p with [] => true | _ => false end) eqn:Ep.
  { destruct p; [|discriminate Ep]. destruct (20 <=? _)%nat, (forallb b64url h); reflexivity. }
  destruct (match sg with [] => true | _ => false end),
    (20 <=? List.length h)%nat, (forallb b64url h),
    (20 <=? List.length p)%nat, (forallb b64url p), (forallb b64url sg); reflexivity.
Qed.

(** Extra X9: [is_possible_jwt] holds exactly when splitting on dots gives
    three base64url parts, the first two of at least 20 characters and the
    signature non-empty. *)
Theorem is_possible_jwt_iff : forall jwt,
  is_possible_jwt jwt = true <->
  exists h p sg, split_on (ch ".") jwt = [h; p; sg] /\
    (20 <= List.length h)%nat /\ (20 <= List.length p)%nat /\ sg <> [] /\
    forallb b64url h = true /\ forallb b64url p = true /\ forallb b64url sg = true.
Proof.
  intros jwt. rewrite is_possible_jwt_bool.
  destruct (split_on (ch ".") jwt) as [|h [|p [|sg [|x rest]]]];
    try (split; [discriminate | intros [h' [p' [sg' [E _]]]]; discriminate E]).
  rewrite !andb_true_iff, !Nat.leb_le, negb_true_iff. split.
  - intros [[[[[Lh Fh] Lp] Fp] Ns] Fs]. exists h, p, sg.
    repeat split; try assumption. destruct sg; [discriminate Ns|discriminate].
  - intros [h' [p' [sg' [E [Lh [Lp [Ns [Fh [Fp Fs]]]]]]]]]. injection E as <- <- <-.
    repeat split; try assumption. destruct sg; [contradiction|reflexivity].
Qed.


(** ** [mask_text] on digit strings *)

Lemma search_digits : forall ci s r pos must,
  forallb is_digit s = true -> uniform_b r = true ->
  search ci s r pos must = search ci (repeat 48 (List.length s)) r pos must.
Proof.
  intros ci s r pos must Hd Hu.
  exact (search_sim ci s _ (digits_sim_zeros s Hd) r Hu pos must).
Qed.

Lemma fullmatch_digits_sim : forall ci s r,
  forallb is_digit s = true -> uniform_b r = true ->
  fullmatch ci s r = fullmatch ci (repeat 48 (List.length s)) r.
Proof.
  intros ci s r Hd Hu. pose proof (digits_sim_zeros s Hd) as Hs.
  unfold fullmatch. rewrite (mt_sim ci s _ Hs r Hu _
    (fun j g => if (j =? List.length (repeat 48%Z (List.length s)))%nat then Some (j, g) else None)).
  - reflexivity.
  - intros j g. rewrite repeat_length. reflexivity.
Qed.

Lemma rule_fixes_digits : forall R s,
  forallb is_digit s = true ->
  (uniform_b (rx R) && negb (search_any (rci R) (repeat 48 (List.length s)) (rx R)))
  || nd_b (rx R) = true ->
  apply R s = s.
Proof.
  intros R s Hd H. apply apply_no_match.
  apply orb_true_iff in H as [H | H].
  - apply andb_true_iff in H as [Hu Hn].
    rewrite (search_digits _ s _ _ _ Hd Hu).
    unfold search_any in Hn. destruct (search _ _ _ 0 false); [discriminate | reflexivity].
  - apply search_nd; assumption.
Qed.

Lemma apply_whole_digits : forall R s g,
  forallb is_digit s = true -> uniform_b (rx R) = true ->
  search (rci R) (repeat 48 (List.length s)) (rx R) 0 false = Some (0%nat, List.length s, g) ->
  search (rci R) (repeat 48 (List.length s)) (rx R) (List.length s) (List.length s =? 0)%nat = None ->
  apply R s = repl R s {| m_start := 0; m_end := List.length s; m_caps := g |}.
Proof.
  intros R s g Hd Hu H1 H2. apply apply_one_match.
  - rewrite (search_digits _ s _ _ _ Hd Hu). exact H1.
  - rewrite (search_digits _ s _ _ _ Hd Hu). exact H2.
Qed.

Lemma slice_whole : forall n (s : text), List.length s = n -> slice 0 n s = s.
Proof. intros n s H. unfold slice. rewrite Nat.sub_0_r. apply firstn_all2. lia. Qed.

Ltac digits_len Hl :=
  match type of Hl with List.length _ = ?n => constr:(n) end.

(** Skip the rules that do not match a digit string, and rewrite the first
    that matches it whole. *)
Ltac digits_step s Hd Hl :=
  match goal with
  | |- context [apply ?R s] =>
      first
        [ rewrite (rule_fixes_digits R s Hd) by (rewrite Hl; vm_compute; reflexivity)
        | let n := digits_len Hl in
          let r := eval vm_compute in (search (rci R) (repeat 48 n) (rx R) 0 false) in
          match r with
          | Some (_, _, ?g) =>
              rewrite (apply_whole_digits R s g Hd) by (try rewrite Hl; vm_compute; reflexivity)
          end ]
  end.

Lemma mask_text_None_unfold : forall t,
  mask_text None t = mask_text_with (all_masker_rules None) t.
Proof. reflexivity. Qed.

Lemma grp_whole : forall t b e b' e' nm,
  grp_or_empty t {| m_start := b; m_end := e; m_caps := [(nm, (b', e'))] |} nm = slice b' e' t.
Proof. intros t b e b' e' nm. unfold grp_or_empty, group. cbn. rewrite String.eqb_refl. reflexivity. Qed.

Lemma group0_whole : forall t e g,
  group0 t {| m_start := 0; m_end := e; m_caps := g |} = slice 0 e t.
Proof. reflexivity. Qed.

Ltac digits_repl s Hl :=
  match goal with
  | |- context [repl ?R s ?m] =>
      let e := eval cbn [repl R validated const_repl] in (repl R s m) in
      change (repl R s m) with e
  end;
  unfold validated, const_repl; cbv beta zeta;
  rewrite ?grp_whole, ?group0_whole, ?(slice_whole _ s Hl), ?(slice_whole _ s eq_refl).

Ltac digits_run s Hd Hl :=
  repeat digits_step s Hd Hl;
  lazymatch goal with
  | |- context [repl _ s _] =>
      digits_repl s Hl; digits_run s Hd Hl
  | |- ?L = _ =>
      lazymatch L with
      | context [if ?b then _ else _] =>
          destruct b eqn:?; try congruence;
          lazymatch goal with
          | |- context [s] => digits_run s Hd Hl
          | _ => vm_compute; reflexivity
          end
      | _ => reflexivity
      end
  end.


Lemma mac_digits : forall s, forallb is_digit s = true -> List.length s = 12%nat -> is_valid_mac s = true.
Proof.
  intros s Hd Hl. unfold is_valid_mac. rewrite fullmatch_digits_sim by (try exact Hd; vm_compute; reflexivity).
  rewrite Hl. vm_compute. reflexivity.
Qed.

Lemma hex_digit : forall c, is_digit c = true -> hex c = true.
Proof. intros c H. unfold hex, por. cbn [existsb]. rewrite H. reflexivity. Qed.

Lemma ssl_digits : forall s, forallb is_digit s = true -> (16 <= List.length s <= 40)%nat ->
  is_valid_ssl_serial s = true.
Proof.
  intros s Hd Hl. unfold is_valid_ssl_serial, rpt. rewrite fullmatch_rep_chr by lia.
  cbn [rep_bound]. apply andb_true_iff; split; [apply andb_true_iff; split|].
  - apply Nat.leb_le. lia.
  - rewrite forallb_forall in Hd |- *. intros c Hc. apply hex_digit, Hd, Hc.
  - apply Nat.leb_le. lia.
Qed.

Lemma nrb_digits : forall s, forallb is_digit s = true -> List.length s = 26%nat -> is_valid_nrb s = true.
Proof.
  intros s Hd Hl. unfold is_valid_nrb. rewrite strip_space_digits by exact Hd.
  rewrite Hl. destruct s; [discriminate Hl|]. cbn [str_isdigit]. rewrite Hd. reflexivity.
Qed.

Lemma sim_digits : forall s, forallb is_digit s = true -> List.length s = 19%nat ->
  is_valid_sim_iccid s = true.
Proof.
  intros s Hd Hl. unfold is_valid_sim_iccid. rewrite strip_space_digits by exact Hd.
  rewrite Hl. destruct s; [discriminate Hl|]. cbn [str_isdigit]. rewrite Hd. reflexivity.
Qed.

(** [mask_text] without the beta rule on a digit string of each length from 0
    to 26, rule by rule. *)
Lemma digits_none_0 : forall s, forallb is_digit s = true -> List.length s = 0%nat ->
  mask_text None s = s.
Proof.
  intros s Hd Hl. rewrite mask_text_None_unfold. unfold mask_text_with.
  cbn [all_masker_rules all_masker_rules_raw flat_map app fold_left].
  digits_run s Hd Hl.
Qed.

Lemma digits_none_1 : forall s, forallb is_digit s = true -> List.length s = 1%nat ->
  mask_text None s = s.
Proof.
  intros s Hd Hl. rewrite mask_text_None_unfold. unfold mask_text_with.
  cbn [all_masker_rules all_masker_rules_raw flat_map app fold_left].
  digits_run s Hd Hl.
Qed.

Lemma digits_none_2 : forall s, forallb is_digit s = true -> List.length s = 2%nat ->
  mask_text None s = s.
Proof.
  intros s Hd Hl. rewrite mask_text_None_unfold. unfold mask_text_with.
  cbn [all_masker_rules all_masker_rules_raw flat_map app fold_left].
  digits_run s Hd Hl.
Qed.

Lemma digits_none_3 : forall s, forallb is_digit s = true -> List.length s = 3%nat ->
  mask_text None s = s.
Proof.
  intros s Hd Hl. rewrite mask_text_None_unfold. unfold mask_text_with.
  cbn [all_masker_rules all_masker_rules_raw flat_map app fold_left].
  digits_run s Hd Hl.
Qed.

Lemma digits_none_4 : forall s, forallb is_digit s = true -> List.length s = 4%nat ->
  mask_text None s = s.
Proof.
  intros s Hd Hl. rewrite mask_text_None_unfold. unfold mask_text_with.
  cbn [all_masker_rules all_masker_rules_raw flat_map app fold_left].
  digits_run s Hd Hl.
Qed.

Lemma digits_none_6 : forall s, forallb is_digit s = true -> List.length s = 6%nat ->
  mask_text None s = s.
Proof.
  intros s Hd Hl. rewrite mask_text_None_unfold. unfold mask_text_with.
  cbn [all_masker_rules all_masker_rules_raw flat_map app fold_left].
  digits_run s Hd Hl.
Qed.

Lemma digits_none_7 : forall s, forallb is_digit s = true -> List.length s = 7%nat ->
  mask_text None s = s.
Proof.
  intros s Hd Hl. rewrite mask_text_None_unfold. unfold mask_text_with.
  cbn [all_masker_rules all_masker_rules_raw flat_map app fold_left].
  digits_run s Hd Hl.
Qed.

Lemma digits_none_8 : forall s, forallb is_digit s = true -> List.length s = 8%nat ->
  mask_text None s = s.
Proof.
  intros s Hd Hl. rewrite mask_text_None_unfold. unfold mask_text_with.
  cbn [all_masker_rules all_masker_rules_raw flat_map app fold_left].
  digits_run s Hd Hl.
Qed.

Lemma digits_none_5 : forall s, forallb is_digit s = true -> List.length s = 5%nat ->
  mask_text None s = txt "{{POSTAL_CODE}}".
Proof.
  intros s Hd Hl. rewrite mask_text_None_unfold. unfold mask_text_with.
  cbn [all_masker_rules all_masker_rules_raw flat_map app fold_left].
  digits_run s Hd Hl.
Qed.

Lemma digits_none_9 : forall s, forallb is_digit s = true -> List.length s = 9%nat ->
  mask_text None s = if is_valid_regon s then txt "{{REGON}}" else txt "{{PHONE}}".
Proof.
  intros s Hd Hl. rewrite mask_text_None_unfold. unfold mask_text_with.
  cbn [all_masker_rules all_masker_rules_raw flat_map app fold_left].
  digits_run s Hd Hl.
Qed.

Lemma digits_none_10 : forall s, forallb is_digit s = true -> List.length s = 10%nat ->
  mask_text None s = if is_valid_nip s then txt "{{NIP}}" else if is_valid_krs s then txt "{{KRS}}" else s.
Proof.
  intros s Hd Hl. rewrite mask_text_None_unfold. unfold mask_text_with.
  cbn [all_masker_rules all_masker_rules_raw flat_map app fold_left].
  digits_run s Hd Hl.
Qed.

Lemma digits_none_11 : forall s, forallb is_digit s = true -> List.length s = 11%nat ->
  mask_text None s = if is_valid_pesel s then txt "{{PESEL}}" else s.
Proof.
  intros s Hd Hl. rewrite mask_text_None_unfold. unfold mask_text_with.
  cbn [all_masker_rules all_masker_rules_raw flat_map app fold_left].
  digits_run s Hd Hl.
Qed.

Lemma digits_none_12 : forall s, forallb is_digit s = true -> List.length s = 12%nat ->
  mask_text None s = txt "{{MAC_ADDRESS}}".
Proof.
  intros s Hd Hl. pose proof (mac_digits s Hd Hl). rewrite mask_text_None_unfold. unfold mask_text_with.
  cbn [all_masker_rules all_masker_rules_raw flat_map app fold_left].
  digits_run s Hd Hl.
Qed.

Lemma digits_none_13 : forall s, forallb is_digit s = true -> List.length s = 13%nat ->
  mask_text None s = if is_valid_credit_card s then txt "{{CREDIT_CARD}}" else s.
Proof.
  intros s Hd Hl. rewrite mask_text_None_unfold. unfold mask_text_with.
  cbn [all_masker_rules all_masker_rules_raw flat_map app fold_left].
  digits_run s Hd Hl.
Qed.

Lemma digits_none_14 : forall s, forallb is_digit s = true -> List.length s = 14%nat ->
  mask_text None s = if is_valid_credit_card s then txt "{{CREDIT_CARD}}" else if is_valid_regon s then txt "{{REGON}}" else s.
Proof.
  intros s Hd Hl. rewrite mask_text_None_unfold. unfold mask_text_with.
  cbn [all_masker_rules all_masker_rules_raw flat_map app fold_left].
  digits_run s Hd Hl.
Qed.

Lemma digits_none_15 : forall s, forallb is_digit s = true -> List.length s = 15%nat ->
  mask_text None s = if is_valid_credit_card s then txt "{{CREDIT_CARD}}" else s.
Proof.
  intros s Hd Hl. rewrite mask_text_None_unfold. unfold mask_text_with.
  cbn [all_masker_rules all_masker_rules_raw flat_map app fold_left].
  digits_run s Hd Hl.
Qed.

Lemma digits_none_16 : forall s, forallb is_digit s = true -> List.length s = 16%nat ->
  mask_text None s = if is_valid_credit_card s then txt "{{CREDIT_CARD}}" else txt "{{SSL_CERT}}".
Proof.
  intros s Hd Hl. pose proof (ssl_digits s Hd ltac:(lia)). rewrite mask_text_None_unfold. unfold mask_text_with.
  cbn [all_masker_rules all_masker_rules_raw flat_map app fold_left].
  digits_run s Hd Hl.
Qed.

Lemma digits_none_17 : forall s, forallb is_digit s = true -> List.length s = 17%nat ->
  mask_text None s = if is_valid_credit_card s then txt "{{CREDIT_CARD}}" else if is_valid_vin s then txt "{{VIN}}" else txt "{{SSL_CERT}}".
Proof.
  intros s Hd Hl. pose proof (ssl_digits s Hd ltac:(lia)). rewrite mask_text_None_unfold. unfold mask_text_with.
  cbn [all_masker_rules all_masker_rules_raw flat_map app fold_left].
  digits_run s Hd Hl.
Qed.

Lemma digits_none_18 : forall s, forallb is_digit s = true -> List.length s = 18%nat ->
  mask_text None s = if is_valid_credit_card s then txt "{{CREDIT_CARD}}" else txt "{{SSL_CERT}}".
Proof.
  intros s Hd Hl. pose proof (ssl_digits s Hd ltac:(lia)). rewrite mask_text_None_unfold. unfold mask_text_with.
  cbn [all_masker_rules all_masker_rules_raw flat_map app fold_left].
  digits_run s Hd Hl.
Qed.

Lemma digits_none_19 : forall s, forallb is_digit s = true -> List.length s = 19%nat ->
  mask_text None s = if is_valid_credit_card s then txt "{{CREDIT_CARD}}" else txt "{{SIM_CARD}}".
Proof.
  intros s Hd Hl. pose proof (sim_digits s Hd Hl). rewrite mask_text_None_unfold. unfold mask_text_with.
  cbn [all_masker_rules all_masker_rules_raw flat_map app fold_left].
  digits_run s Hd Hl.
Qed.

Lemma digits_none_20 : forall s, forallb is_digit s = true -> List.length s = 20%nat ->
  mask_text None s = txt "{{SSL_CERT}}".
Proof.
  intros s Hd Hl. pose proof (ssl_digits s Hd ltac:(lia)). rewrite mask_text_None_unfold. unfold mask_text_with.
  cbn [all_masker_rules all_masker_rules_raw flat_map app fold_left].
  digits_run s Hd Hl.
Qed.

Lemma digits_none_21 : forall s, forallb is_digit s = true -> List.length s = 21%nat ->
  mask_text None s = txt "{{SSL_CERT}}".
Proof.
  intros s Hd Hl. pose proof (ssl_digits s Hd ltac:(lia)). rewrite mask_text_None_unfold. unfold mask_text_with.
  cbn [all_masker_rules all_masker_rules_raw flat_map app fold_left].
  digits_run s Hd Hl.
Qed.

Lemma digits_none_22 : forall s, forallb is_digit s = true -> List.length s = 22%nat ->
  mask_text None s = txt "{{SSL_CERT}}".
Proof.
  intros s Hd Hl. pose proof (ssl_digits s Hd ltac:(lia)). rewrite mask_text_None_unfold. unfold mask_text_with.
  cbn [all_masker_rules all_masker_rules_raw flat_map app fold_left].
  digits_run s Hd Hl.
Qed.

Lemma digits_none_23 : forall s, forallb is_digit s = true -> List.length s = 23%nat ->
  mask_text None s = txt "{{SSL_CERT}}".
Proof.
  intros s Hd Hl. pose proof (ssl_digits s Hd ltac:(lia)). rewrite mask_text_None_unfold. unfold mask_text_with.
  cbn [all_masker_rules all_masker_rules_raw flat_map app fold_left].
  digits_run s Hd Hl.
Qed.

Lemma digits_none_24 : forall s, forallb is_digit s = true -> List.length s = 24%nat ->
  mask_text None s = txt "{{SSL_CERT}}".
Proof.
  intros s Hd Hl. pose proof (ssl_digits s Hd ltac:(lia)). rewrite mask_text_None_unfold. unfold mask_text_with.
  cbn [all_masker_rules all_masker_rules_raw flat_map app fold_left].
  digits_run s Hd Hl.
Qed.

Lemma digits_none_25 : forall s, forallb is_digit s = true -> List.length s = 25%nat ->
  mask_text None s = txt "{{SSL_CERT}}".
Proof.
  intros s Hd Hl. pose proof (ssl_digits s Hd ltac:(lia)). rewrite mask_text_None_unfold. unfold mask_text_with.
  cbn [all_masker_rules all_masker_rules_raw flat_map app fold_left].
  digits_run s Hd Hl.
Qed.

Lemma digits_none_26 : forall s, forallb is_digit s = true -> List.length s = 26%nat ->
  mask_text None s = txt "{{NRB}}".
Proof.
  intros s Hd Hl. pose proof (nrb_digits s Hd Hl). rewrite mask_text_None_unfold. unfold mask_text_with.
  cbn [all_masker_rules all_masker_rules_raw flat_map app fold_left].
  digits_run s Hd Hl.
Qed.


Lemma personal_data_repl_digits : forall sn s e g,
  forallb is_digit s = true ->
  repl (personal_data_rule sn) s {| m_start := 0; m_end := e; m_caps := g |} = slice 0 e s.
Proof.
  intros sn s e g Hd. cbn [repl personal_data_rule]. rewrite group0_whole.
  unfold slice. rewrite Nat.sub_0_r. cbn [skipn].
  destruct e as [|e]; [cbn; rewrite andb_false_r; reflexivity|].
  destruct s as [|c s']; [cbn; rewrite andb_false_r; reflexivity|].
  cbn [firstn]. cbn [forallb] in Hd. apply andb_true_iff in Hd as [Hc _].
  unfold is_upper. destruct (lower_digit c Hc) as [-> _]. rewrite Z.eqb_refl.
  cbn [negb andb]. rewrite andb_false_r. reflexivity.
Qed.

Lemma personal_data_digits : forall sn s,
  forallb is_digit s = true ->
  search true (repeat 48 (List.length s)) (rx (personal_data_rule (fun _ => false))) 0 false
    = Some (0%nat, List.length s, []) ->
  search true (repeat 48 (List.length s)) (rx (personal_data_rule (fun _ => false)))
    (List.length s) (List.length s =? 0)%nat = None ->
  apply (personal_data_rule sn) s = s.
Proof.
  intros sn s Hd H1 H2.
  rewrite (apply_whole_digits (personal_data_rule sn) s [] Hd); [| reflexivity | exact H1 | exact H2].
  rewrite personal_data_repl_digits by exact Hd. apply slice_whole. reflexivity.
Qed.

Lemma personal_data_closed : forall sn out,
  beta_avoids (Some sn) placeholder_words ->
  apply (personal_data_rule (fun _ => false)) out = out ->
  forallb (fun x => existsb (text_eqb x) placeholder_words) (surname_candidates out) = true ->
  apply (personal_data_rule sn) out = out.
Proof.
  intros sn out Hb H1 H2. rewrite personal_data_ext; [exact H1|].
  intros x Hx. apply Hb. rewrite forallb_forall in H2. apply existsb_text_in, H2, Hx.
Qed.

Ltac beta_digits beta s Hd Hl Hb H0 :=
  destruct beta as [sn|]; [|exact H0];
  rewrite mask_text_beta, H0;
  repeat match goal with |- context [if ?b then _ else _] => destruct b end;
  first
    [ apply personal_data_closed; [exact Hb | vm_compute; reflexivity | vm_compute; reflexivity]
    | apply personal_data_digits; [exact Hd | rewrite Hl; vm_compute; reflexivity
                                  | rewrite Hl; vm_compute; reflexivity] ].

(** Extra X10: [mask_text] leaves a digit string of length 0 to 4 or 6 to
    8 unchanged, under every beta configuration. *)
Theorem mask_text_short_digit_runs : forall beta s,
  forallb is_digit s = true -> In (List.length s) [0; 1; 2; 3; 4; 6; 7; 8]%nat ->
  mask_text beta s = s.
Proof.
  intros beta s Hd Hin.
  assert (H0 : mask_text None s = s).
  { cbn [In] in Hin.
    repeat destruct Hin as [Hin | Hin];
      [ apply digits_none_0 | apply digits_none_1 | apply digits_none_2 | apply digits_none_3 | apply digits_none_4
      | apply digits_none_6 | apply digits_none_7 | apply digits_none_8 | contradiction ];
      first [exact Hd | symmetry; exact Hin]. }
  destruct beta as [sn|]; [|exact H0]. rewrite mask_text_beta, H0.
  destruct s as [|c s']; [reflexivity|].
  apply personal_data_digits; [exact Hd | |];
    cbn [In] in Hin; repeat destruct Hin as [Hin | Hin]; try contradiction;
    try discriminate Hin; rewrite <- Hin; vm_compute; reflexivity.
Qed.

(** Extra X11: [mask_text] replaces every 5-digit string by
    [{{POSTAL_CODE}}] (for every beta surname set without a placeholder
    word). *)
Theorem mask_text_five_digits : forall beta s,
  beta_avoids beta placeholder_words ->
  forallb is_digit s = true -> List.length s = 5%nat ->
  mask_text beta s = txt "{{POSTAL_CODE}}".
Proof.
  intros beta s Hb Hd Hl. pose proof (digits_none_5 s Hd Hl) as H0.
  beta_digits beta s Hd Hl Hb H0.
Qed.

(** Extra X12: [mask_text] replaces a 9-digit string by [{{REGON}}] when
    it is a valid REGON and by [{{PHONE}}] otherwise. *)
Theorem mask_text_nine_digits : forall beta s,
  beta_avoids beta placeholder_words ->
  forallb is_digit s = true -> List.length s = 9%nat ->
  mask_text beta s = if is_valid_regon s then txt "{{REGON}}" else txt "{{PHONE}}".
Proof.
  intros beta s Hb Hd Hl. pose proof (digits_none_9 s Hd Hl) as H0.
  beta_digits beta s Hd Hl Hb H0.
Qed.

(** Extra X13: [mask_text] replaces a 10-digit string by [{{NIP}}] when it
    is a valid NIP, else by [{{KRS}}] when it is a valid KRS, and leaves it
    unchanged otherwise. *)
Theorem mask_text_ten_digits : forall beta s,
  beta_avoids beta placeholder_words ->
  forallb is_digit s = true -> List.length s = 10%nat ->
  mask_text beta s =
  if is_valid_nip s then txt "{{NIP}}" else if is_valid_krs s then txt "{{KRS}}" else s.
Proof.
  intros beta s Hb Hd Hl. pose proof (digits_none_10 s Hd Hl) as H0.
  beta_digits beta s Hd Hl Hb H0.
Qed.

(** Extra X14: [mask_text] replaces an 11-digit string by [{{PESEL}}]
    exactly when it is a valid PESEL and leaves it unchanged otherwise. *)
Theorem mask_text_eleven_digits : forall beta s,
  beta_avoids beta placeholder_words ->
  forallb is_digit s = true -> List.length s = 11%nat ->
  mask_text beta s = if is_valid_pesel s then txt "{{PESEL}}" else s.
Proof.
  intros beta s Hb Hd Hl. pose proof (digits_none_11 s Hd Hl) as H0.
  beta_digits beta s Hd Hl Hb H0.
Qed.

(** Extra X15: [mask_text] replaces every 12-digit string by
    [{{MAC_ADDRESS}}]. *)
Theorem mask_text_twelve_digits : forall beta s,
  beta_avoids beta placeholder_words ->
  forallb is_digit s = true -> List.length s = 12%nat ->
  mask_text beta s = txt "{{MAC_ADDRESS}}".
Proof.
  intros beta s Hb Hd Hl. pose proof (digits_none_12 s Hd Hl) as H0.
  beta_digits beta s Hd Hl Hb H0.
Qed.

(** Extra X16: [mask_text] replaces a digit string of 13 to 19 digits that
    passes the Luhn check by [{{CREDIT_CARD}}]. *)
Theorem mask_text_card_digits : forall beta s,
  beta_avoids beta placeholder_words ->
  forallb is_digit s = true -> (13 <= List.length s <= 19)%nat ->
  is_valid_credit_card s = true ->
  mask_text beta s = txt "{{CREDIT_CARD}}".
Proof.
  intros beta s Hb Hd Hn Hc.
  assert (H0 : mask_text None s = txt "{{CREDIT_CARD}}").
  { assert (Hn' : In (List.length s) [13; 14; 15; 16; 17; 18; 19]%nat)
      by (cbn [In]; lia).
    cbn [In] in Hn'.
    repeat destruct Hn' as [Hn' | Hn'];
      [ rewrite (digits_none_13 s Hd (eq_sym Hn')) | rewrite (digits_none_14 s Hd (eq_sym Hn'))
      | rewrite (digits_none_15 s Hd (eq_sym Hn')) | rewrite (digits_none_16 s Hd (eq_sym Hn'))
      | rewrite (digits_none_17 s Hd (eq_sym Hn')) | rewrite (digits_none_18 s Hd (eq_sym Hn'))
      | rewrite (digits_none_19 s Hd (eq_sym Hn')) | contradiction ];
      rewrite Hc; reflexivity. }
  destruct beta as [sn|]; [|exact H0]. rewrite mask_text_beta, H0.
  apply personal_data_closed; [exact Hb | vm_compute; reflexivity | vm_compute; reflexivity].
Qed.

(** Extra X17: a digit string of 13 to 19 digits that fails the card check
    is left unchanged (13 or 15 digits), masked as [{{REGON}}] when it is a
    valid 14-digit REGON (else unchanged), masked as [{{SSL_CERT}}] (16 or
    18 digits), as [{{VIN}}] when it is a valid VIN and [{{SSL_CERT}}]
    otherwise (17 digits), or as [{{SIM_CARD}}] (19 digits). *)
Theorem mask_text_card_fallback_digits : forall beta s,
  beta_avoids beta placeholder_words ->
  forallb is_digit s = true -> is_valid_credit_card s = false ->
  ((List.length s = 13 \/ List.length s = 15)%nat -> mask_text beta s = s) /\
  (List.length s = 14%nat ->
     mask_text beta s = if is_valid_regon s then txt "{{REGON}}" else s) /\
  ((List.length s = 16 \/ List.length s = 18)%nat -> mask_text beta s = txt "{{SSL_CERT}}") /\
  (List.length s = 17%nat ->
     mask_text beta s = if is_valid_vin s then txt "{{VIN}}" else txt "{{SSL_CERT}}") /\
  (List.length s = 19%nat -> mask_text beta s = txt "{{SIM_CARD}}").
Proof.
  intros beta s Hb Hd Hc.
  split; [intros [Hl | Hl] | split; [intros Hl | split; [intros [Hl | Hl] | split; intros Hl]]].
  - pose proof (digits_none_13 s Hd Hl) as H0. rewrite Hc in H0. beta_digits beta s Hd Hl Hb H0.
  - pose proof (digits_none_15 s Hd Hl) as H0. rewrite Hc in H0. beta_digits beta s Hd Hl Hb H0.
  - pose proof (digits_none_14 s Hd Hl) as H0. rewrite Hc in H0. beta_digits beta s Hd Hl Hb H0.
  - pose proof (digits_none_16 s Hd Hl) as H0. rewrite Hc in H0. beta_digits beta s Hd Hl Hb H0.
  - pose proof (digits_none_18 s Hd Hl) as H0. rewrite Hc in H0. beta_digits beta s Hd Hl Hb H0.
  - pose proof (digits_none_17 s Hd Hl) as H0. rewrite Hc in H0. beta_digits beta s Hd Hl Hb H0.
  - pose proof (digits_none_19 s Hd Hl) as H0. rewrite Hc in H0. beta_digits beta s Hd Hl Hb H0.
Qed.

(** Extra X18: [mask_text] replaces every digit string of 20 to 25 digits
    by [{{SSL_CERT}}] and every 26-digit string by [{{NRB}}]. *)
Theorem mask_text_long_digit_runs : forall beta s,
  beta_avoids beta placeholder_words ->
  forallb is_digit s = true ->
  ((20 <= List.length s <= 25)%nat -> mask_text beta s = txt "{{SSL_CERT}}") /\
  (List.length s = 26%nat -> mask_text beta s = txt "{{NRB}}").
Proof.
  intros beta s Hb Hd. split; intros Hl.
  - assert (H0 : mask_text None s = txt "{{SSL_CERT}}").
    { assert (Hn : In (List.length s) [20; 21; 22; 23; 24; 25]%nat) by (cbn [In]; lia).
      cbn [In] in Hn.
      repeat destruct Hn as [Hn | Hn];
        [ apply digits_none_20 | apply digits_none_21 | apply digits_none_22 | apply digits_none_23 | apply digits_none_24
        | apply digits_none_25 | contradiction ]; first [exact Hd | symmetry; exact Hn]. }
    destruct beta as [sn|]; [|exact H0]. rewrite mask_text_beta, H0.
    apply personal_data_closed; [exact Hb | vm_compute; reflexivity | vm_compute; reflexivity].
  - pose proof (digits_none_26 s Hd Hl) as H0. beta_digits beta s Hd Hl Hb H0.
Qed.


(** ** Dicts without key collisions *)

Lemma dict_set_fresh : forall {V} (acc : list (pykey * V)) k v,
  ~ In k (map fst acc) -> dict_set acc k v = acc ++ [(k, v)].
Proof.
  induction acc as [|[k1 v1] acc IH]; intros k v H; simpl in H |- *; [reflexivity|].
  destruct (pykey_eq_dec k k1) as [E | Hne]; [subst; tauto|].
  rewrite IH by tauto. reflexivity.
Qed.

Lemma fold_dict_fresh : forall f es acc,
  NoDup (map fst acc ++ map (fun e => mask_key f (fst e)) es) ->
  fold_left (dict_step f) es acc =
  acc ++ map (fun e => (mask_key f (fst e), mask_payload f (snd e))) es.
Proof.
  intros f. induction es as [|e es IH]; intros acc H; simpl; [rewrite app_nil_r; reflexivity|].
  simpl in H. unfold dict_step at 2. rewrite dict_set_fresh.
  - rewrite IH, <- app_assoc; [reflexivity|]. rewrite map_app, <- app_assoc. exact H.
  - intros Hin. apply NoDup_remove_2 in H. apply H. apply in_or_app. left. exact Hin.
Qed.

(** Extra X19: when the masked keys of a dict are pairwise distinct,
    [mask_payload] keeps every entry, in the original order, with its key
    and value masked. *)
Theorem mask_dict_injective_keys : forall (f : text -> text) es,
  NoDup (map (fun e => mask_key f (fst e)) es) ->
  mask_payload f (PMap PyDict es) =
  PMap PyDict (map (fun e => (mask_key f (fst e), mask_payload f (snd e))) es).
Proof.
  intros f es H. rewrite mask_payload_dict, fold_dict_fresh; [reflexivity | exact H].
Qed.

Lemma mask_dict_injective_keys_witness :
  NoDup (map (fun e => mask_key (fun t => t ++ t) (fst e))
             [(KStr (txt "a"), PStr (txt "x")); (KStr (txt "b"), POther 1); (KOther 7, PStr [])]) /\
  mask_payload (fun t => t ++ t)
    (PMap PyDict [(KStr (txt "a"), PStr (txt "x")); (KStr (txt "b"), POther 1); (KOther 7, PStr [])])
  = PMap PyDict [(KStr (txt "aa"), PStr (txt "xx")); (KStr (txt "bb"), POther 1); (KOther 7, PStr [])].
Proof.
  assert (H : NoDup (map (fun e => mask_key (fun t => t ++ t) (fst e))
             [(KStr (txt "a"), PStr (txt "x")); (KStr (txt "b"), POther 1); (KOther 7, PStr [])])).
  { cbn. repeat constructor; cbn; intuition discriminate. }
  split; [exact H|]. rewrite (mask_dict_injective_keys _ _ H). reflexivity.
Defined.

Lemma str_replace_go_nil : forall fuel old new, str_replace_go fuel old new [] = [].
Proof. intros [|fuel] old new; reflexivity. Qed.

Lemma str_replace_after_prefix : forall pre s new fuel,
  forallb (fun c => negb (is_digit c)) pre = true -> forallb is_digit s = true -> s <> [] ->
  (List.length pre < fuel)%nat ->
  str_replace_go fuel s new (pre ++ s) = pre ++ new.
Proof.
  induction pre as [|c pre IH]; intros s new fuel Hp Hd Hn Hf; destruct fuel as [|fuel]; try lia.
  - destruct s as [|d s']; [contradiction|]. cbn [app str_replace_go].
    rewrite firstn_all. destruct (list_eq_dec Z.eq_dec (d :: s') (d :: s')) as [_|C]; [|contradiction].
    rewrite skipn_all, str_replace_go_nil, app_nil_r. reflexivity.
  - cbn [forallb] in Hp. apply andb_true_iff in Hp as [Hc Hp].
    cbn [app str_replace_go].
    destruct (list_eq_dec Z.eq_dec (firstn (List.length s) (c :: pre ++ s)) s) as [E|_].
    + exfalso. destruct s as [|d s']; [contradiction|].
      cbn [List.length firstn] in E. injection E as E _. subst d.
      cbn [forallb] in Hd. rewrite andb_true_iff in Hd. destruct Hd as [Hd _].
      rewrite Hd in Hc. discriminate.
    + rewrite IH by (try assumption; cbn [List.length] in Hf; lia). reflexivity.
Qed.

(** ** [PeselTaggedRule] *)

Lemma rule_fixes_shadow : forall R t z,
  Forall2 sim_char t z -> uniform_b (rx R) = true -> search_any (rci R) z (rx R) = false ->
  apply R t = t.
Proof.
  intros R t z Hs Hu Hn. apply apply_no_match.
  rewrite (search_sim _ t z Hs _ Hu). unfold search_any in Hn.
  destruct (search _ z _ 0 false); [discriminate | reflexivity].
Qed.

Lemma apply_one_shadow : forall R t z g,
  Forall2 sim_char t z -> uniform_b (rx R) = true ->
  search (rci R) z (rx R) 0 false = Some (0%nat, List.length t, g) ->
  search (rci R) z (rx R) (List.length t) (List.length t =? 0)%nat = None ->
  apply R t = repl R t {| m_start := 0; m_end := List.length t; m_caps := g |}.
Proof.
  intros R t z g Hs Hu H1 H2. apply apply_one_match.
  - rewrite (search_sim _ t z Hs _ Hu). exact H1.
  - rewrite (search_sim _ t z Hs _ Hu). exact H2.
Qed.

Lemma sim_char_refl : forall t, Forall2 sim_char t t.
Proof. induction t; constructor; [left; reflexivity | assumption]. Qed.

(** Extra X20: [mask_text] turns [PESEL: ] followed by a valid 11-digit
    PESEL into [PESEL: {{PESEL_TAGGED}}]: the label is kept and only the
    number is replaced. *)
Theorem mask_text_pesel_tagged : forall beta s,
  beta_avoids beta placeholder_words ->
  forallb is_digit s = true -> List.length s = 11%nat -> is_valid_pesel s = true ->
  mask_text beta (txt "PESEL: " ++ s) = txt "PESEL: {{PESEL_TAGGED}}".
Proof.
  intros beta s Hb Hd Hl Hv.
  assert (Hs : Forall2 sim_char (txt "PESEL: " ++ s) (txt "PESEL: " ++ repeat 48 11)).
  { apply Forall2_app; [apply sim_char_refl|]. rewrite <- Hl. apply digits_sim_zeros, Hd. }
  assert (Hlen : List.length (txt "PESEL: " ++ s) = 18%nat) by (rewrite length_app, Hl; reflexivity).
  assert (H0 : mask_text None (txt "PESEL: " ++ s) = txt "PESEL: {{PESEL_TAGGED}}").
  { rewrite mask_text_None_unfold. unfold mask_text_with.
    cbn [all_masker_rules all_masker_rules_raw flat_map app fold_left].
    rewrite (rule_fixes_shadow credit_card_rule _ _ Hs) by (vm_compute; reflexivity).
    rewrite (rule_fixes_shadow vin_rule _ _ Hs) by (vm_compute; reflexivity).
    rewrite (apply_one_shadow pesel_tagged_rule _ _ [("pesel"%string, (7%nat, 18%nat))] Hs)
      by (try rewrite Hlen; vm_compute; reflexivity).
    cbn [repl pesel_tagged_rule]. rewrite grp_whole, group0_whole, (slice_whole _ _ eq_refl).
    replace (slice 7 18 (txt "PESEL: " ++ s)) with s.
    2:{ unfold slice. change (skipn 7 (txt "PESEL: " ++ s)) with s.
        change (18 - 7)%nat with 11%nat. rewrite firstn_all2 by lia. reflexivity. }
    rewrite Hv. unfold str_replace.
    rewrite str_replace_after_prefix;
      [ | reflexivity | exact Hd | intros ->; discriminate Hl | rewrite Hlen; vm_compute; lia].
    vm_compute. reflexivity. }
  destruct beta as [sn|]; [|exact H0]. rewrite mask_text_beta, H0.
  apply personal_data_closed; [exact Hb | vm_compute; reflexivity | vm_compute; reflexivity].
Qed.


(** ** Witnesses of the further properties *)

Lemma is_valid_nip_iff_witness :
  is_valid_nip (txt "1000000006") = true /\ is_valid_nip (txt "0000000030") = false.
Proof.
  destruct is_valid_nip_iff as [H1 H2]. split.
  - apply (proj2 (H1 (txt "1000000006"))). vm_compute. repeat split.
  - apply H2. vm_compute. reflexivity.
Defined.

Lemma is_valid_regon_shape_witness :
  is_valid_regon (txt "10000000800007") = true /\ is_valid_regon (txt "100000008") = true.
Proof.
  assert (H : is_valid_regon (txt "10000000800007") = true) by (vm_compute; reflexivity).
  split; [exact H|].
  destruct (is_valid_regon_shape (txt "10000000800007") H) as [_ [_ H3]].
  exact (H3 eq_refl).
Defined.

Lemma is_valid_vin_shape_witness :
  is_valid_vin (txt "1M8GDM9A9KP042788") = true /\
  nth_error (str_upper (txt "1M8GDM9A9KP042788")) 8 = Some (ch "9").
Proof.
  assert (Ha : Forall (fun c => 0 <= c < 128) (txt "1M8GDM9A9KP042788")).
  { apply Forall_forall. intros c Hc.
    assert (T : forallb (fun c => (0 <=? c) && (c <? 128)) (txt "1M8GDM9A9KP042788") = true)
      by (vm_compute; reflexivity).
    rewrite forallb_forall in T. specialize (T c Hc).
    apply andb_true_iff in T as [T1 T2]. apply Z.leb_le in T1. apply Z.ltb_lt in T2. lia. }
  assert (H : is_valid_vin (txt "1M8GDM9A9KP042788") = true) by (vm_compute; reflexivity).
  split; [exact H|].
  destruct (is_valid_vin_shape _ Ha H) as [_ [_ [_ [c [Hc _]]]]].
  rewrite Hc. f_equal. vm_compute in Hc. injection Hc as <-. reflexivity.
Defined.

Lemma is_valid_vin_ascii_case_witness :
  is_valid_vin (str_lower (txt "1M8GDM9A9KP042788")) = true.
Proof.
  assert (Ha : Forall (fun c => 0 <= c < 128) (txt "1M8GDM9A9KP042788")).
  { apply Forall_forall. intros c Hc.
    assert (T : forallb (fun c => (0 <=? c) && (c <? 128)) (txt "1M8GDM9A9KP042788") = true)
      by (vm_compute; reflexivity).
    rewrite forallb_forall in T. specialize (T c Hc).
    apply andb_true_iff in T as [T1 T2]. apply Z.leb_le in T1. apply Z.ltb_lt in T2. lia. }
  destruct (is_valid_vin_ascii_case _ Ha) as [E _]. rewrite E. vm_compute. reflexivity.
Defined.

Lemma mask_text_short_digit_runs_witness :
  mask_text None (txt "1234") = txt "1234" /\ mask_text None (txt "1234567") = txt "1234567".
Proof.
  split; apply mask_text_short_digit_runs; vm_compute; auto 10.
Defined.

Lemma mask_text_five_digits_witness :
  mask_text None (txt "12345") = txt "{{POSTAL_CODE}}".
Proof. apply mask_text_five_digits; [exact I | vm_compute; reflexivity | reflexivity]. Defined.

Lemma mask_text_nine_digits_witness :
  mask_text None (txt "100000008") = txt "{{REGON}}" /\
  mask_text None (txt "100000002") = txt "{{PHONE}}".
Proof.
  split.
  - rewrite (mask_text_nine_digits None (txt "100000008") I) by (vm_compute; reflexivity).
    vm_compute. reflexivity.
  - rewrite (mask_text_nine_digits None (txt "100000002") I) by (vm_compute; reflexivity).
    vm_compute. reflexivity.
Defined.

Lemma mask_text_ten_digits_witness :
  mask_text None (txt "1000000006") = txt "{{NIP}}" /\
  mask_text None (txt "1000000002") = txt "{{KRS}}".
Proof.
  split.
  - rewrite (mask_text_ten_digits None (txt "1000000006") I) by (vm_compute; reflexivity).
    vm_compute. reflexivity.
  - rewrite (mask_text_ten_digits None (txt "1000000002") I) by (vm_compute; reflexivity).
    vm_compute. reflexivity.
Defined.

Lemma mask_text_eleven_digits_witness :
  mask_text None (txt "44051401359") = txt "{{PESEL}}".
Proof.
  rewrite (mask_text_eleven_digits None (txt "44051401359") I) by (vm_compute; reflexivity).
  vm_compute. reflexivity.
Defined.

Lemma mask_text_twelve_digits_witness :
  mask_text None (txt "123456789012") = txt "{{MAC_ADDRESS}}".
Proof. apply mask_text_twelve_digits; [exact I | vm_compute; reflexivity | reflexivity]. Defined.

Lemma mask_text_card_digits_witness :
  mask_text None (txt "4111111111111111") = txt "{{CREDIT_CARD}}".
Proof.
  apply mask_text_card_digits;
    [exact I | vm_compute; reflexivity | cbn; lia | vm_compute; reflexivity].
Defined.

Lemma mask_text_card_fallback_digits_witness :
  mask_text None (txt "4111111111111112") = txt "{{SSL_CERT}}".
Proof.
  destruct (mask_text_card_fallback_digits None (txt "4111111111111112") I)
    as [_ [_ [H16 _]]]; [vm_compute; reflexivity | vm_compute; reflexivity |].
  apply H16. left. reflexivity.
Defined.

Lemma mask_text_long_digit_runs_witness :
  mask_text None (txt "12345678901234567890") = txt "{{SSL_CERT}}" /\
  mask_text None (txt "12345678901234567890123456") = txt "{{NRB}}".
Proof.
  destruct (mask_text_long_digit_runs None (txt "12345678901234567890") I) as [H1 _];
    [vm_compute; reflexivity|].
  destruct (mask_text_long_digit_runs None (txt "12345678901234567890123456") I) as [_ H2];
    [vm_compute; reflexivity|].
  split; [apply H1; cbn; lia | apply H2; reflexivity].
Defined.

Lemma mask_text_pesel_tagged_witness :
  mask_text None (txt "PESEL: 44051401359") = txt "PESEL: {{PESEL_TAGGED}}".
Proof.
  change (txt "PESEL: 44051401359") with (txt "PESEL: " ++ txt "44051401359").
  apply mask_text_pesel_tagged;
    [exact I | vm_compute; reflexivity | reflexivity | vm_compute; reflexivity].
Defined.
